(** * Mt3620UartSigfox: the UART / button / LED event loop of [main.c]

    A shallow embedding of [main.c].  The program is a single-threaded event
    loop over five descriptors.  Everything it does to the outside world goes
    through library calls ([write], [read], [GPIO_GetValue], ...); the model
    keeps the program's global variables in a record, records every library
    call together with its result in a chronological trace, and takes the
    results of the calls from an environment.  Loops whose exit depends on
    the environment ([SendUartMessage], the dispatch loop of [main]) carry
    fuel; running out of fuel is the result [None]. *)

From Stdlib Require Import ZArith List Bool Ascii String Lia.
Import ListNotations.
Local Open Scope Z_scope.

(** ** Data *)

(** [GPIO_Value_Type] of applibs/gpio.h: the two logic levels. *)
Inductive GPIO_Value_Type : Type :=
| GPIO_Value_Low
| GPIO_Value_High.

Definition GPIO_Value_eqb (a b : GPIO_Value_Type) : bool :=
  match a, b with
  | GPIO_Value_Low, GPIO_Value_Low => true
  | GPIO_Value_High, GPIO_Value_High => true
  | _, _ => false
  end.

Inductive GPIO_OutputMode_Type : Type :=
| GPIO_OutputMode_PushPull.

Inductive UART_FlowControl_Type : Type :=
| UART_FlowControl_None
| UART_FlowControl_RTSCTS
| UART_FlowControl_XONXOFF.

(** [UART_Config]: the two fields [main.c] assigns, and the remaining fields
    as [UART_InitConfig] left them. *)
Record UART_Config : Type := mkUART_Config {
  baudRate : Z;
  flowControl : UART_FlowControl_Type;
  otherFields : list Z
}.

(** The board identifiers of mt3620_rdb.h used by the program. *)
Inductive PeripheralId : Type :=
| MT3620_RDB_HEADER2_ISU0_UART
| MT3620_RDB_BUTTON_A
| MT3620_RDB_LED2_RED.

Record timespec : Type := mkTimespec { tv_sec : Z; tv_nsec : Z }.

Definition timespec_nanoseconds (t : timespec) : Z :=
  tv_sec t * 1000000000 + tv_nsec t.

(** The two statically allocated [EventData] objects; each stands for the
    handler stored in its [eventHandler] field. *)
Inductive EventData : Type :=
| buttonPollTimerEventData
| uartEventData.

Inductive EpollMask : Type :=
| EPOLLIN.

Inductive Signal : Type :=
| SIGTERM.

(** [size_t] on the MT3620 application core (32-bit ARM): unsigned, 32 bits,
    arithmetic modulo [2^32]. *)
Definition SIZE_BITS : Z := 32.
Definition SIZE_MODULUS : Z := 2 ^ SIZE_BITS.
Definition size_t (z : Z) : Z := z mod SIZE_MODULUS.

(** A C string is the list of its characters before the terminating NUL. *)
Definition c_string : Type := list ascii.

Definition strlen (s : c_string) : Z := size_t (Z.of_nat (List.length s)).

(** ** Library calls, events and the environment *)

(** The calls the program makes into applibs, libc and
    epoll_timerfd_utilities, with the arguments it passes.  [write] carries
    the bytes its pointer argument points at (the rest of the C string) and
    the count; [Log_Debug] carries the format (without the trailing newline
    escape) and the integer arguments the program supplies. *)
Inductive Call : Type :=
| sigaction (s : Signal)
| CreateEpollFd
| UART_Open (id : PeripheralId) (cfg : UART_Config)
| RegisterEventHandlerToEpoll (epfd fd : Z) (data : EventData) (mask : EpollMask)
| GPIO_OpenAsInput (id : PeripheralId)
| CreateTimerFdAndAddToEpoll (epfd : Z) (period : timespec)
                             (data : EventData) (mask : EpollMask)
| GPIO_OpenAsOutput (id : PeripheralId) (mode : GPIO_OutputMode_Type)
                    (initial : GPIO_Value_Type)
| ConsumeTimerFdEvent (fd : Z)
| GPIO_GetValue (fd : Z)
| GPIO_SetValue (fd : Z) (value : GPIO_Value_Type)
| write (fd : Z) (buf : c_string) (count : Z)
| read (fd : Z) (count : Z)
| epoll_wait (epfd : Z)
| CloseFdAndPrintError (fd : Z) (name : string)
| Log_Debug (fmt : string) (args : list Z).

(** One entry of the trace: a call with its integer result, a call that also
    stored a level through its out-pointer, or a call whose result the
    program does not look at. *)
Inductive Event : Type :=
| Returned (c : Call) (r : Z)
| ReturnedLevel (c : Call) (r : Z) (v : GPIO_Value_Type)
| Performed (c : Call).

(** The environment answers the [i]-th library call of the run. *)
Record Env : Type := mkEnv {
  answer : nat -> Call -> Z;
  level : nat -> GPIO_Value_Type;
  ready : nat -> list EventData;
  signalled : nat -> bool;
  initialConfig : UART_Config
}.

(** The global variables of [main.c]. *)
Record Globals : Type := mkGlobals {
  uartFd : Z;
  triggerSendButtonGpioFd : Z;
  buttonPollTimerFd : Z;
  incomingDataLedGpioFd : Z;
  epollFd : Z;
  buttonState : GPIO_Value_Type;
  totalBytesReceived : Z;
  terminationRequired : bool
}.

(** The values of the static initialisers. *)
Definition initialGlobals : Globals :=
  mkGlobals (-1) (-1) (-1) (-1) (-1) GPIO_Value_High 0 false.

Definition set_uartFd (v : Z) (g : Globals) : Globals :=
  mkGlobals v (triggerSendButtonGpioFd g) (buttonPollTimerFd g)
            (incomingDataLedGpioFd g) (epollFd g) (buttonState g)
            (totalBytesReceived g) (terminationRequired g).

Definition set_triggerSendButtonGpioFd (v : Z) (g : Globals) : Globals :=
  mkGlobals (uartFd g) v (buttonPollTimerFd g)
            (incomingDataLedGpioFd g) (epollFd g) (buttonState g)
            (totalBytesReceived g) (terminationRequired g).

Definition set_buttonPollTimerFd (v : Z) (g : Globals) : Globals :=
  mkGlobals (uartFd g) (triggerSendButtonGpioFd g) v
            (incomingDataLedGpioFd g) (epollFd g) (buttonState g)
            (totalBytesReceived g) (terminationRequired g).

Definition set_incomingDataLedGpioFd (v : Z) (g : Globals) : Globals :=
  mkGlobals (uartFd g) (triggerSendButtonGpioFd g) (buttonPollTimerFd g)
            v (epollFd g) (buttonState g)
            (totalBytesReceived g) (terminationRequired g).

Definition set_epollFd (v : Z) (g : Globals) : Globals :=
  mkGlobals (uartFd g) (triggerSendButtonGpioFd g) (buttonPollTimerFd g)
            (incomingDataLedGpioFd g) v (buttonState g)
            (totalBytesReceived g) (terminationRequired g).

Definition set_buttonState (v : GPIO_Value_Type) (g : Globals) : Globals :=
  mkGlobals (uartFd g) (triggerSendButtonGpioFd g) (buttonPollTimerFd g)
            (incomingDataLedGpioFd g) (epollFd g) v
            (totalBytesReceived g) (terminationRequired g).

Definition set_totalBytesReceived (v : Z) (g : Globals) : Globals :=
  mkGlobals (uartFd g) (triggerSendButtonGpioFd g) (buttonPollTimerFd g)
            (incomingDataLedGpioFd g) (epollFd g) (buttonState g)
            v (terminationRequired g).

Definition set_terminationRequired (v : bool) (g : Globals) : Globals :=
  mkGlobals (uartFd g) (triggerSendButtonGpioFd g) (buttonPollTimerFd g)
            (incomingDataLedGpioFd g) (epollFd g) (buttonState g)
            (totalBytesReceived g) v.

(** The program state: the globals and what has been done so far. *)
Record World : Type := mkWorld {
  globals : Globals;
  trace : list Event
}.

Definition initialWorld : World := mkWorld initialGlobals [].

(** ** The monad of the program *)

(** A computation reads the environment, transforms the world and returns a
    value, or runs out of fuel. *)
Definition M (A : Type) : Type := Env -> World -> option (A * World).

Definition ret {A : Type} (a : A) : M A :=
  fun _ w => Some (a, w).

Definition bind {A B : Type} (m : M A) (k : A -> M B) : M B :=
  fun env w =>
    match m env w with
    | Some (a, w') => k a env w'
    | None => None
    end.

Definition out_of_fuel {A : Type} : M A :=
  fun _ _ => None.

Declare Scope prog_scope.
Delimit Scope prog_scope with prog.
Notation "x <- m ;; k" := (bind m (fun x => k))
  (at level 61, m at next level, right associativity) : prog_scope.
Notation "m ;; k" := (bind m (fun _ => k))
  (at level 61, right associativity) : prog_scope.
Local Open Scope prog_scope.

Definition get : M Globals :=
  fun _ w => Some (globals w, w).

Definition modify (f : Globals -> Globals) : M unit :=
  fun _ w => Some (tt, mkWorld (f (globals w)) (trace w)).

(** The index of the next library call. *)
Definition now (w : World) : nat := List.length (trace w).

Definition call (c : Call) : M Z :=
  fun env w =>
    let r := answer env (now w) c in
    Some (r, mkWorld (globals w) (trace w ++ [Returned c r])).

Definition call_level (c : Call) : M (Z * GPIO_Value_Type) :=
  fun env w =>
    let r := answer env (now w) c in
    let v := level env (now w) in
    Some ((r, v), mkWorld (globals w) (trace w ++ [ReturnedLevel c r v])).

Definition perform (c : Call) : M unit :=
  fun _ w => Some (tt, mkWorld (globals w) (trace w ++ [Performed c])).

Definition when (b : bool) (m : M unit) : M unit :=
  if b then m else ret tt.

(** [UART_InitConfig] fills the configuration with the library's defaults. *)
Definition UART_InitConfig : M UART_Config :=
  fun env w => Some (initialConfig env, w).

(** What the environment holds for the call about to be made. *)
Definition pending {A : Type} (f : Env -> nat -> A) : M A :=
  fun env w => Some (f env (now w), w).

(** ** The program *)

(** [TerminationHandler]: the SIGTERM handler only raises the flag. *)
Definition TerminationHandler : M unit :=
  modify (set_terminationRequired true).

Definition LF : ascii := ascii_of_nat 10.
Definition CR : ascii := ascii_of_nat 13.

(** The literal of [ButtonPollTimerEventHandler]:
    ["AT$RC\n\rAT$SF=692665535048455245\n\r"]. *)
Definition messageToSend : c_string :=
  list_ascii_of_string "AT$RC" ++ [LF; CR] ++
  list_ascii_of_string "AT$SF=692665535048455245" ++ [LF; CR].

(** The [while] loop of [SendUartMessage].  [remainingMessageToSend] is the
    pointer [dataToSend + totalBytesSent]: the message without its first
    [totalBytesSent] bytes.  [sendIterations] is only printed. *)
Fixpoint SendUartMessage_loop (fuel : nat) (uartFd : Z) (dataToSend : c_string)
    (totalBytesToSend totalBytesSent sendIterations : Z) : M unit :=
  if totalBytesSent <? totalBytesToSend then
    match fuel with
    | O => out_of_fuel
    | S fuel' =>
        let sendIterations := sendIterations + 1 in
        let bytesLeftToSend := size_t (totalBytesToSend - totalBytesSent) in
        let remainingMessageToSend :=
          skipn (Z.to_nat totalBytesSent) dataToSend in
        bytesSent <- call (write uartFd remainingMessageToSend bytesLeftToSend) ;;
        if bytesSent <? 0 then
          perform (Log_Debug "ERROR: Could not write to UART: %s (%d)." []) ;;
          modify (set_terminationRequired true)
        else
          SendUartMessage_loop fuel' uartFd dataToSend totalBytesToSend
            (size_t (totalBytesSent + size_t bytesSent)) sendIterations
    end
  else
    perform (Log_Debug "Sent %zu bytes over UART in %d calls."
                       [totalBytesSent; sendIterations]).

Definition SendUartMessage (fuel : nat) (uartFd : Z) (dataToSend : c_string)
    : M unit :=
  SendUartMessage_loop fuel uartFd dataToSend (strlen dataToSend) 0 0.

Definition ButtonPollTimerEventHandler (fuel : nat) : M unit :=
  g <- get ;;
  consumed <- call (ConsumeTimerFdEvent (buttonPollTimerFd g)) ;;
  if negb (consumed =? 0) then
    modify (set_terminationRequired true)
  else
    sample <- call_level (GPIO_GetValue (triggerSendButtonGpioFd g)) ;;
    let result := fst sample in
    let newButtonState := snd sample in
    if negb (result =? 0) then
      perform (Log_Debug "ERROR: Could not read button GPIO: %s (%d)." []) ;;
      modify (set_terminationRequired true)
    else
      g <- get ;;
      if negb (GPIO_Value_eqb newButtonState (buttonState g)) then
        (if GPIO_Value_eqb newButtonState GPIO_Value_Low then
           SendUartMessage fuel (uartFd g) messageToSend
         else ret tt) ;;
        modify (set_buttonState newButtonState)
      else ret tt.

Definition receiveBufferSize : Z := 256.

Definition UartEventHandler : M unit :=
  g <- get ;;
  bytesRead <- call (read (uartFd g) receiveBufferSize) ;;
  if bytesRead <? 0 then
    perform (Log_Debug "ERROR: Could not read UART: %s (%d)." []) ;;
    modify (set_terminationRequired true)
  else if bytesRead >? 0 then
    perform (Log_Debug "UART received %d bytes: '%s'." [bytesRead]) ;;
    modify (fun g => set_totalBytesReceived
                       (size_t (totalBytesReceived g + size_t bytesRead)) g) ;;
    g <- get ;;
    result <- call (GPIO_SetValue (incomingDataLedGpioFd g)
                      (if totalBytesReceived g mod 2 =? 1
                       then GPIO_Value_Low else GPIO_Value_High)) ;;
    if negb (result =? 0) then
      perform (Log_Debug "ERROR: Could not set LED output value: %s (%d)." []) ;;
      modify (set_terminationRequired true)
    else ret tt
  else ret tt.

(** The handler an [EventData] object points at. *)
Definition eventHandler (fuel : nat) (d : EventData) : M unit :=
  match d with
  | buttonPollTimerEventData => ButtonPollTimerEventHandler fuel
  | uartEventData => UartEventHandler
  end.

Definition buttonPressCheckPeriod : timespec := mkTimespec 0 1000000.

Definition InitPeripheralsAndHandlers : M Z :=
  perform (sigaction SIGTERM) ;;
  fd <- call CreateEpollFd ;;
  modify (set_epollFd fd) ;;
  if fd <? 0 then ret (-1) else
  uartConfig <- UART_InitConfig ;;
  let uartConfig :=
    mkUART_Config 9600 UART_FlowControl_None (otherFields uartConfig) in
  fd <- call (UART_Open MT3620_RDB_HEADER2_ISU0_UART uartConfig) ;;
  modify (set_uartFd fd) ;;
  if fd <? 0 then
    perform (Log_Debug "ERROR: Could not open UART: %s (%d)." []) ;;
    ret (-1)
  else
  g <- get ;;
  registered <- call (RegisterEventHandlerToEpoll (epollFd g) (uartFd g)
                        uartEventData EPOLLIN) ;;
  if negb (registered =? 0) then ret (-1) else
  perform (Log_Debug "Opening MT3620_RDB_BUTTON_A as input." []) ;;
  fd <- call (GPIO_OpenAsInput MT3620_RDB_BUTTON_A) ;;
  modify (set_triggerSendButtonGpioFd fd) ;;
  if fd <? 0 then
    perform (Log_Debug "ERROR: Could not open button GPIO: %s (%d)." []) ;;
    ret (-1)
  else
  g <- get ;;
  fd <- call (CreateTimerFdAndAddToEpoll (epollFd g) buttonPressCheckPeriod
                buttonPollTimerEventData EPOLLIN) ;;
  modify (set_buttonPollTimerFd fd) ;;
  if fd <? 0 then ret (-1) else
  perform (Log_Debug "Opening MT3620_RDB_LED2_RED." []) ;;
  fd <- call (GPIO_OpenAsOutput MT3620_RDB_LED2_RED GPIO_OutputMode_PushPull
                GPIO_Value_High) ;;
  modify (set_incomingDataLedGpioFd fd) ;;
  if fd <? 0 then
    perform (Log_Debug "ERROR: Could not open LED GPIO: %s (%d)." []) ;;
    ret (-1)
  else ret 0.

Definition ClosePeripheralsAndHandlers : M unit :=
  g <- get ;;
  (if incomingDataLedGpioFd g >=? 0 then
     call (GPIO_SetValue (incomingDataLedGpioFd g) GPIO_Value_High) ;; ret tt
   else ret tt) ;;
  perform (Log_Debug "Closing file descriptors." []) ;;
  perform (CloseFdAndPrintError (incomingDataLedGpioFd g) "IncomingDataLedGpio") ;;
  perform (CloseFdAndPrintError (buttonPollTimerFd g) "ButtonPollTimer") ;;
  perform (CloseFdAndPrintError (triggerSendButtonGpioFd g) "TriggerSendButtonGpio") ;;
  perform (CloseFdAndPrintError (uartFd g) "Uart") ;;
  perform (CloseFdAndPrintError (epollFd g) "Epoll").

Definition EventData_eq_dec (a b : EventData) : {a = b} + {a <> b}.
Proof. decide equality. Defined.

(** Run the handlers of the ready sources, one after the other. *)
Fixpoint dispatch (fuel : nat) (sources : list EventData) : M unit :=
  match sources with
  | [] => ret tt
  | d :: rest => eventHandler fuel d ;; dispatch fuel rest
  end.

(** Modelled from the spec: [WaitForEventAndCallHandler] of
    epoll_timerfd_utilities, which is not among the sources.  Section 4.1:
    it blocks until a registered source is ready and then invokes the
    callback of each ready source exactly once; it reports an error when the
    wait primitive fails; an interruption by a signal is benign.  The
    environment says which sources are ready, whether SIGTERM arrived during
    the wait, and what the wait primitive returned. *)
Definition WaitForEventAndCallHandler (fuel : nat) (epollFd : Z) : M Z :=
  interrupted <- pending signalled ;;
  sources <- pending ready ;;
  waited <- call (epoll_wait epollFd) ;;
  if interrupted then TerminationHandler ;; ret 0
  else if waited <? 0 then ret (-1)
  else dispatch fuel (nodup EventData_eq_dec sources) ;; ret 0.

(** The dispatch loop of [main]. *)
Fixpoint main_loop (fuel loops : nat) : M unit :=
  g <- get ;;
  if negb (terminationRequired g) then
    match loops with
    | O => out_of_fuel
    | S loops' =>
        waited <- WaitForEventAndCallHandler fuel (epollFd g) ;;
        when (negb (waited =? 0)) (modify (set_terminationRequired true)) ;;
        main_loop fuel loops'
    end
  else ret tt.

Definition main (fuel loops : nat) : M Z :=
  perform (Log_Debug "UART application starting." []) ;;
  initialised <- InitPeripheralsAndHandlers ;;
  when (negb (initialised =? 0)) (modify (set_terminationRequired true)) ;;
  main_loop fuel loops ;;
  ClosePeripheralsAndHandlers ;;
  perform (Log_Debug "Application exiting." []) ;;
  ret 0.

(** Run a handler [n] times in a row. *)
Fixpoint iterate (n : nat) (handler : M unit) : M unit :=
  match n with
  | O => ret tt
  | S n' => handler ;; iterate n' handler
  end.

(** ** What can be observed in a trace *)

(** The events a computation added to the trace of the world it started in. *)
Definition events_since (w w' : World) : list Event :=
  skipn (now w) (trace w').

Definition is_write (e : Event) : bool :=
  match e with
  | Returned (write _ _ _) _ => true
  | _ => false
  end.

Definition is_failed_write (e : Event) : bool :=
  match e with
  | Returned (write _ _ _) r => r <? 0
  | _ => false
  end.

(** The bytes the UART accepted: a [write] that returned [r >= 0] took the
    first [r] bytes of its buffer. *)
Fixpoint transmitted (tr : list Event) : c_string :=
  match tr with
  | [] => []
  | Returned (write _ buf _) r :: tr' =>
      (if r <? 0 then [] else firstn (Z.to_nat r) buf) ++ transmitted tr'
  | _ :: tr' => transmitted tr'
  end.

(** The counts requested by the [write] calls, in order. *)
Fixpoint write_counts (tr : list Event) : list Z :=
  match tr with
  | [] => []
  | Returned (write _ _ n) _ :: tr' => n :: write_counts tr'
  | _ :: tr' => write_counts tr'
  end.

Fixpoint decreasing (l : list Z) : Prop :=
  match l with
  | a :: (b :: _) as rest => b < a /\ decreasing rest
  | _ => True
  end.

(** The environment honours the contract of [write]: never more bytes than
    requested. *)
Definition write_contract (env : Env) : Prop :=
  forall i fd buf n, 0 <= n -> answer env i (write fd buf n) <= n.

(** A [write] asked for at least one byte never returns zero. *)
Definition write_progress (env : Env) : Prop :=
  forall i fd buf n, 0 < n -> answer env i (write fd buf n) <> 0.

(** Every integer result in the trace is one the environment gave. *)
Definition answered_by (env : Env) (e : Event) : Prop :=
  match e with
  | Returned c r => exists i, r = answer env i c
  | ReturnedLevel c r _ => exists i, r = answer env i c
  | Performed _ => True
  end.

(** The runs of the loop of [SendUartMessage] as a relation between the
    running total, the iteration count, the events and whether the loop gave
    up on a failed [write]. *)
Inductive send_run (fd : Z) (data : c_string) (total : Z)
  : Z -> Z -> list Event -> bool -> Prop :=
| send_done : forall sent iters,
    total <= sent ->
    send_run fd data total sent iters
      [Performed (Log_Debug "Sent %zu bytes over UART in %d calls."
                            [sent; iters])] false
| send_failed : forall sent iters r,
    sent < total -> r < 0 ->
    send_run fd data total sent iters
      [Returned (write fd (skipn (Z.to_nat sent) data)
                       (size_t (total - sent))) r;
       Performed (Log_Debug "ERROR: Could not write to UART: %s (%d)." [])]
      true
| send_more : forall sent iters r evs failed,
    sent < total -> 0 <= r ->
    send_run fd data total (size_t (sent + size_t r)) (iters + 1) evs failed ->
    send_run fd data total sent iters
      (Returned (write fd (skipn (Z.to_nat sent) data)
                      (size_t (total - sent))) r :: evs)
      failed.

(** The two conditions on the environment, read off a single event. *)
Definition within_count (e : Event) : Prop :=
  match e with
  | Returned (write _ _ n) r => 0 <= n -> r <= n
  | _ => True
  end.

Definition makes_progress (e : Event) : Prop :=
  match e with
  | Returned (write _ _ n) r => 0 < n -> r <> 0
  | _ => True
  end.

(** ** The button poll handler: samples, sends and outcomes *)

Definition is_poll_start (e : Event) : bool :=
  match e with
  | Returned (ConsumeTimerFdEvent _) _ => true
  | _ => false
  end.

(** Whether a [write] is issued before the next poll begins. *)
Fixpoint sends_before_next_poll (tr : list Event) : bool :=
  match tr with
  | [] => false
  | e :: tr' =>
      if is_poll_start e then false
      else is_write e || sends_before_next_poll tr'
  end.

(** The samples the handler processed, each with whether a send followed
    it.  A sample is what a successful [GPIO_GetValue] stored. *)
Fixpoint poll_log (tr : list Event) : list (GPIO_Value_Type * bool) :=
  match tr with
  | [] => []
  | ReturnedLevel (GPIO_GetValue _) r v :: tr' =>
      if r =? 0 then (v, sends_before_next_poll tr') :: poll_log tr'
      else poll_log tr'
  | _ :: tr' => poll_log tr'
  end.

(** The press edges of a sequence of samples: a sample is marked when it
    differs from the state recorded before it and is Low. *)
Fixpoint edge_log (recorded : GPIO_Value_Type) (samples : list GPIO_Value_Type)
  : list (GPIO_Value_Type * bool) :=
  match samples with
  | [] => []
  | s :: rest =>
      (s, negb (GPIO_Value_eqb s recorded) && GPIO_Value_eqb s GPIO_Value_Low)
        :: edge_log s rest
  end.

(** The five ways one invocation of the handler can go, with the events it
    adds and the globals it leaves. *)
Inductive poll_outcome (env : Env) (g : Globals)
  : list Event -> Globals -> Prop :=
| poll_timer_error : forall r,
    r <> 0 ->
    poll_outcome env g
      [Returned (ConsumeTimerFdEvent (buttonPollTimerFd g)) r]
      (set_terminationRequired true g)
| poll_read_error : forall r v,
    r <> 0 ->
    poll_outcome env g
      [Returned (ConsumeTimerFdEvent (buttonPollTimerFd g)) 0;
       ReturnedLevel (GPIO_GetValue (triggerSendButtonGpioFd g)) r v;
       Performed (Log_Debug "ERROR: Could not read button GPIO: %s (%d)." [])]
      (set_terminationRequired true g)
| poll_unchanged :
    poll_outcome env g
      [Returned (ConsumeTimerFdEvent (buttonPollTimerFd g)) 0;
       ReturnedLevel (GPIO_GetValue (triggerSendButtonGpioFd g)) 0
                     (buttonState g)]
      g
| poll_release :
    buttonState g = GPIO_Value_Low ->
    poll_outcome env g
      [Returned (ConsumeTimerFdEvent (buttonPollTimerFd g)) 0;
       ReturnedLevel (GPIO_GetValue (triggerSendButtonGpioFd g)) 0
                     GPIO_Value_High]
      (set_buttonState GPIO_Value_High g)
| poll_press : forall evs failed,
    buttonState g = GPIO_Value_High ->
    send_run (uartFd g) messageToSend (strlen messageToSend) 0 0 evs failed ->
    Forall (answered_by env) evs ->
    poll_outcome env g
      (Returned (ConsumeTimerFdEvent (buttonPollTimerFd g)) 0
       :: ReturnedLevel (GPIO_GetValue (triggerSendButtonGpioFd g)) 0
                        GPIO_Value_Low
       :: evs)
      (set_buttonState GPIO_Value_Low
         (if failed then set_terminationRequired true g else g)).

(** Reduce the projections of the worlds built by the monad's primitives. *)
Ltac world_simpl := cbn [globals trace fst snd negb] in *.

(** Several invocations in a row. *)
Inductive poll_outcomes (env : Env)
  : Globals -> list Event -> Globals -> Prop :=
| polls_none : forall g, poll_outcomes env g [] g
| polls_next : forall g evs g1 rest g2,
    poll_outcome env g evs g1 ->
    poll_outcomes env g1 rest g2 ->
    poll_outcomes env g (evs ++ rest) g2.

(** A trace that is empty or begins a poll. *)
Definition starts_poll (tr : list Event) : Prop :=
  match tr with
  | [] => True
  | e :: _ => is_poll_start e = true
  end.

Definition is_send_event (e : Event) : Prop :=
  match e with
  | Returned (write _ _ _) _ => True
  | Performed (Log_Debug _ _) => True
  | _ => False
  end.

(** The poll about to run in [w] consumes its timer event and reads the
    level [v] from the button. *)
Definition samples (env : Env) (w : World) (v : GPIO_Value_Type) : Prop :=
  answer env (now w)
         (ConsumeTimerFdEvent (buttonPollTimerFd (globals w))) = 0 /\
  answer env (S (now w))
         (GPIO_GetValue (triggerSendButtonGpioFd (globals w))) = 0 /\
  level env (S (now w)) = v.

(** A press edge: the recorded state is High and the poll reads Low. *)
Definition press_edge (env : Env) (w : World) : Prop :=
  buttonState (globals w) = GPIO_Value_High /\ samples env w GPIO_Value_Low.

(** The world once the sample [v] has been read. *)
Definition sampled (w : World) (v : GPIO_Value_Type) : World :=
  mkWorld (globals w)
    (trace w ++
     [Returned (ConsumeTimerFdEvent (buttonPollTimerFd (globals w))) 0;
      ReturnedLevel (GPIO_GetValue (triggerSendButtonGpioFd (globals w))) 0 v]).

(** ** The serial receive handler: reads and LED requests *)

(** The byte counts returned by the [read] calls of a trace, in order. *)
Fixpoint bytes_read (tr : list Event) : list Z :=
  match tr with
  | [] => []
  | Returned (read _ _) r :: tr' => r :: bytes_read tr'
  | _ :: tr' => bytes_read tr'
  end.

(** The levels requested from the LED by the [GPIO_SetValue] calls. *)
Fixpoint led_requests (tr : list Event) : list GPIO_Value_Type :=
  match tr with
  | [] => []
  | Returned (GPIO_SetValue _ v) _ :: tr' => v :: led_requests tr'
  | _ :: tr' => led_requests tr'
  end.

(** The [read] calls of a trace with the count each one asked for. *)
Fixpoint read_counts (tr : list Event) : list Z :=
  match tr with
  | [] => []
  | Returned (read _ n) _ :: tr' => n :: read_counts tr'
  | _ :: tr' => read_counts tr'
  end.



(** The LED is active-low: on (Low) for an odd count, off (High) for an
    even one. *)
Definition indicator (count : Z) : GPIO_Value_Type :=
  if Z.odd count then GPIO_Value_Low else GPIO_Value_High.


(** The handler when [read] returns [r > 0] bytes: the events it adds. *)
Definition receive_events (env : Env) (w : World) (r : Z) : list Event :=
  let g := globals w in
  let count := size_t (totalBytesReceived g + r) in
  let request := GPIO_SetValue (incomingDataLedGpioFd g) (indicator count) in
  let result := answer env (S (S (now w))) request in
  [Returned (read (uartFd g) receiveBufferSize) r;
   Performed (Log_Debug "UART received %d bytes: '%s'." [r]);
   Returned request result] ++
  (if result =? 0 then []
   else [Performed
           (Log_Debug "ERROR: Could not set LED output value: %s (%d)." [])]).

Definition receive_globals (env : Env) (w : World) (r : Z) : Globals :=
  let g := globals w in
  let count := size_t (totalBytesReceived g + r) in
  let request := GPIO_SetValue (incomingDataLedGpioFd g) (indicator count) in
  let result := answer env (S (S (now w))) request in
  if result =? 0 then set_totalBytesReceived count g
  else set_terminationRequired true (set_totalBytesReceived count g).

(** ** Initialisation and shutdown: events and outcomes *)

(** The events of [InitPeripheralsAndHandlers] up to each acquisition, given
    what the acquisitions returned. *)
Definition init_epoll (e : Z) : list Event :=
  [Performed (sigaction SIGTERM); Returned CreateEpollFd e].

Definition init_uart (env : Env) (e u : Z) : list Event :=
  init_epoll e ++
  [Returned (UART_Open MT3620_RDB_HEADER2_ISU0_UART
               (mkUART_Config 9600 UART_FlowControl_None
                              (otherFields (initialConfig env)))) u].

Definition init_registration (env : Env) (e u r : Z) : list Event :=
  init_uart env e u ++
  [Returned (RegisterEventHandlerToEpoll e u uartEventData EPOLLIN) r].

Definition init_button (env : Env) (e u b : Z) : list Event :=
  init_registration env e u 0 ++
  [Performed (Log_Debug "Opening MT3620_RDB_BUTTON_A as input." []);
   Returned (GPIO_OpenAsInput MT3620_RDB_BUTTON_A) b].

Definition init_timer (env : Env) (e u b t : Z) : list Event :=
  init_button env e u b ++
  [Returned (CreateTimerFdAndAddToEpoll e buttonPressCheckPeriod
               buttonPollTimerEventData EPOLLIN) t].

Definition init_led (env : Env) (e u b t l : Z) : list Event :=
  init_timer env e u b t ++
  [Performed (Log_Debug "Opening MT3620_RDB_LED2_RED." []);
   Returned (GPIO_OpenAsOutput MT3620_RDB_LED2_RED GPIO_OutputMode_PushPull
               GPIO_Value_High) l].

(** The seven ways initialisation can go: the events, the value returned and
    the globals left behind. *)
Inductive init_outcome (env : Env) (g : Globals)
  : list Event -> Z -> Globals -> Prop :=
| init_no_epoll : forall e,
    e < 0 ->
    init_outcome env g (init_epoll e) (-1) (set_epollFd e g)
| init_no_uart : forall e u,
    0 <= e -> u < 0 ->
    init_outcome env g
      (init_uart env e u ++
       [Performed (Log_Debug "ERROR: Could not open UART: %s (%d)." [])])
      (-1) (set_uartFd u (set_epollFd e g))
| init_no_registration : forall e u r,
    0 <= e -> 0 <= u -> r <> 0 ->
    init_outcome env g (init_registration env e u r)
      (-1) (set_uartFd u (set_epollFd e g))
| init_no_button : forall e u b,
    0 <= e -> 0 <= u -> b < 0 ->
    init_outcome env g
      (init_button env e u b ++
       [Performed (Log_Debug "ERROR: Could not open button GPIO: %s (%d)." [])])
      (-1)
      (set_triggerSendButtonGpioFd b (set_uartFd u (set_epollFd e g)))
| init_no_timer : forall e u b t,
    0 <= e -> 0 <= u -> 0 <= b -> t < 0 ->
    init_outcome env g (init_timer env e u b t)
      (-1)
      (set_buttonPollTimerFd t
         (set_triggerSendButtonGpioFd b (set_uartFd u (set_epollFd e g))))
| init_no_led : forall e u b t l,
    0 <= e -> 0 <= u -> 0 <= b -> 0 <= t -> l < 0 ->
    init_outcome env g
      (init_led env e u b t l ++
       [Performed (Log_Debug "ERROR: Could not open LED GPIO: %s (%d)." [])])
      (-1)
      (set_incomingDataLedGpioFd l
         (set_buttonPollTimerFd t
            (set_triggerSendButtonGpioFd b (set_uartFd u (set_epollFd e g)))))
| init_ok : forall e u b t l,
    0 <= e -> 0 <= u -> 0 <= b -> 0 <= t -> 0 <= l ->
    init_outcome env g (init_led env e u b t l)
      0
      (set_incomingDataLedGpioFd l
         (set_buttonPollTimerFd t
            (set_triggerSendButtonGpioFd b (set_uartFd u (set_epollFd e g))))).

Ltac by_hypothesis :=
  match goal with
  | H : _ |- _ => exact H
  end.

Ltac init_branch :=
  match goal with
  | |- context [if ?x <? 0 then _ else _] =>
      let E := fresh "E" in
      destruct (x <? 0) eqn:E;
      [apply Z.ltb_lt in E | apply Z.ltb_ge in E]
  | |- context [if negb (?x =? 0) then _ else _] =>
      let E := fresh "E" in
      destruct (x =? 0) eqn:E;
      [apply Z.eqb_eq in E | apply Z.eqb_neq in E]
  end.

(** The release calls of [ClosePeripheralsAndHandlers], in program order. *)
Definition close_descriptors (g : Globals) : list Event :=
  [Performed (Log_Debug "Closing file descriptors." []);
   Performed (CloseFdAndPrintError (incomingDataLedGpioFd g) "IncomingDataLedGpio");
   Performed (CloseFdAndPrintError (buttonPollTimerFd g) "ButtonPollTimer");
   Performed (CloseFdAndPrintError (triggerSendButtonGpioFd g) "TriggerSendButtonGpio");
   Performed (CloseFdAndPrintError (uartFd g) "Uart");
   Performed (CloseFdAndPrintError (epollFd g) "Epoll")].

(** The guarded [GPIO_SetValue] that switches the LED off. *)
Definition led_off (env : Env) (w : World) : list Event :=
  let fd := incomingDataLedGpioFd (globals w) in
  if fd >=? 0 then
    [Returned (GPIO_SetValue fd GPIO_Value_High)
              (answer env (now w) (GPIO_SetValue fd GPIO_Value_High))]
  else [].

(** The state of [main] when it calls [InitPeripheralsAndHandlers]. *)
Definition started : World :=
  mkWorld initialGlobals [Performed (Log_Debug "UART application starting." [])].

(** ** Scenarios for the button poll handler and the send routine *)

(** Scenario A of the specification: the samples High, Low, Low, High, Low,
    with a UART that takes every message in one [write]. *)
Definition scenario_A_env : Env :=
  mkEnv (fun _ c => match c with write _ _ n => n | _ => 0 end)
        (fun i => match i with
                  | 3%nat | 7%nat | 11%nat => GPIO_Value_Low
                  | _ => GPIO_Value_High
                  end)
        (fun _ => []) (fun _ => false)
        (mkUART_Config 115200 UART_FlowControl_None []).

(** C2 as stated, at one poll: whatever the handler does, the UART has taken
    either the whole message or nothing of it (and then the flag is set). *)
Definition sent_in_full_or_not_at_all
    (fuel : nat) (env : Env) (w : World) : Prop :=
  forall w',
    ButtonPollTimerEventHandler fuel env w = Some (tt, w') ->
    transmitted (events_since w w') = messageToSend \/
    (transmitted (events_since w w') = [] /\
     terminationRequired (globals w') = true).

(** A UART that takes ten bytes and then fails. *)
Definition partial_write_env : Env :=
  mkEnv (fun i c => match c with
                    | write _ _ n => if (i =? 2)%nat then Z.min 10 n else -1
                    | _ => 0
                    end)
        (fun _ => GPIO_Value_Low)
        (fun _ => []) (fun _ => false)
        (mkUART_Config 115200 UART_FlowControl_None []).

(** A UART whose first [write] fails. *)
Definition failing_write_env : Env :=
  mkEnv (fun _ c => match c with write _ _ _ => -1 | _ => 0 end)
        (fun _ => GPIO_Value_Low)
        (fun _ => []) (fun _ => false)
        (mkUART_Config 115200 UART_FlowControl_None []).

(** ** Scenarios for the serial receive handler *)




(** Scenario B, second half: 5 bytes, then 4. *)
Definition scenario_B_odd_env : Env :=
  mkEnv (fun i c => match c with
                    | read _ _ => if (i =? 0)%nat then 5 else 4
                    | _ => 0
                    end)
        (fun _ => GPIO_Value_High)
        (fun _ => []) (fun _ => false)
        (mkUART_Config 115200 UART_FlowControl_None []).

(** A serial port whose [read] fails. *)
Definition failing_read_env : Env :=
  mkEnv (fun _ c => match c with read _ _ => -1 | _ => 0 end)
        (fun _ => GPIO_Value_High)
        (fun _ => []) (fun _ => false)
        (mkUART_Config 115200 UART_FlowControl_None []).

(** ** Scenarios for initialisation and shutdown *)

(** The calls that hand out a descriptor. *)
Definition acquires (c : Call) : bool :=
  match c with
  | CreateEpollFd
  | UART_Open _ _
  | GPIO_OpenAsInput _
  | CreateTimerFdAndAddToEpoll _ _ _ _
  | GPIO_OpenAsOutput _ _ _ => true
  | _ => false
  end.

(** The descriptors acquired in a trace, in the order of acquisition: the
    non-negative results of the acquiring calls. *)
Fixpoint acquired (tr : list Event) : list Z :=
  match tr with
  | [] => []
  | Returned c fd :: tr' =>
      if acquires c && (0 <=? fd) then fd :: acquired tr' else acquired tr'
  | _ :: tr' => acquired tr'
  end.

(** The descriptors handed to [CloseFdAndPrintError], in order. *)
Fixpoint released (tr : list Event) : list Z :=
  match tr with
  | [] => []
  | Performed (CloseFdAndPrintError fd _) :: tr' => fd :: released tr'
  | _ :: tr' => released tr'
  end.

Definition is_wait (e : Event) : bool :=
  match e with
  | Returned (epoll_wait _) _ => true
  | _ => false
  end.

(** C5 as stated: the first thing shutdown does is switch the LED off. *)
Definition shutdown_starts_with_led_off (env : Env) (w : World) : Prop :=
  exists w' r rest,
    ClosePeripheralsAndHandlers env w = Some (tt, w') /\
    events_since w w' =
      Returned (GPIO_SetValue (incomingDataLedGpioFd (globals w))
                              GPIO_Value_High) r :: rest.

(** Scenario C of the specification: every acquisition succeeds except the
    opening of the LED. *)
Definition scenario_C_env : Env :=
  mkEnv (fun _ c => match c with
                    | CreateEpollFd => 3
                    | UART_Open _ _ => 4
                    | GPIO_OpenAsInput _ => 5
                    | CreateTimerFdAndAddToEpoll _ _ _ _ => 6
                    | GPIO_OpenAsOutput _ _ _ => -1
                    | _ => 0
                    end)
        (fun _ => GPIO_Value_High)
        (fun _ => [uartEventData]) (fun _ => false)
        (mkUART_Config 115200 UART_FlowControl_None []).

(** The world in which [main] calls [ClosePeripheralsAndHandlers] in
    scenario C. *)
Definition scenario_C_shutdown : World :=
  match InitPeripheralsAndHandlers scenario_C_env started with
  | Some (_, w) => mkWorld (set_terminationRequired true (globals w)) (trace w)
  | None => started
  end.

(** ** Failures, frames and the LED level *)

(** A library call of a handler whose result the handler treats as an
    error. *)
Definition is_failure (e : Event) : bool :=
  match e with
  | Returned (ConsumeTimerFdEvent _) r => negb (r =? 0)
  | ReturnedLevel (GPIO_GetValue _) r _ => negb (r =? 0)
  | Returned (write _ _ _) r => r <? 0
  | Returned (read _ _) r => r <? 0
  | Returned (GPIO_SetValue _ _) r => negb (r =? 0)
  | _ => false
  end.

(** The five descriptor variables, in the order in which
    [InitPeripheralsAndHandlers] assigns them. *)
Definition descriptors (g : Globals) : list Z :=
  [epollFd g; uartFd g; triggerSendButtonGpioFd g; buttonPollTimerFd g;
   incomingDataLedGpioFd g].

(** An event that neither acquires nor releases a descriptor. *)
Definition keeps_descriptors (e : Event) : bool :=
  match e with
  | Returned c _ => negb (acquires c)
  | ReturnedLevel _ _ _ => true
  | Performed (CloseFdAndPrintError _ _) => false
  | Performed _ => true
  end.

Definition is_log (e : Event) : bool :=
  match e with
  | Performed (Log_Debug _ _) => true
  | _ => false
  end.

(** The level of the output with descriptor [fd] after a trace: the initial
    value given to the [GPIO_OpenAsOutput] that returned [fd], or the value
    of the last [GPIO_SetValue] on [fd] that returned 0. *)
Fixpoint output_level_from (fd : Z) (current : option GPIO_Value_Type)
    (tr : list Event) : option GPIO_Value_Type :=
  match tr with
  | [] => current
  | Returned (GPIO_OpenAsOutput _ _ v) r :: tr' =>
      output_level_from fd (if r =? fd then Some v else current) tr'
  | Returned (GPIO_SetValue fd' v) r :: tr' =>
      output_level_from fd
        (if (fd' =? fd) && (r =? 0) then Some v else current) tr'
  | _ :: tr' => output_level_from fd current tr'
  end.

Definition output_level (fd : Z) (tr : list Event) : option GPIO_Value_Type :=
  output_level_from fd None tr.

(** A run from [w] to [w'] that only added events which neither acquire nor
    release a descriptor, and left the descriptor variables alone. *)
Definition keeps_resources (w w' : World) : Prop :=
  exists evs,
    trace w' = trace w ++ evs /\
    forallb keeps_descriptors evs = true /\
    descriptors (globals w') = descriptors (globals w).

(** A run of the whole program: every acquisition succeeds, the button is
    held down, every [read] returns five bytes, both sources are ready at
    each wait, and SIGTERM arrives during the third wait. *)
Definition running_env : Env :=
  mkEnv (fun _ c => match c with
                    | CreateEpollFd => 3
                    | UART_Open _ _ => 4
                    | GPIO_OpenAsInput _ => 5
                    | CreateTimerFdAndAddToEpoll _ _ _ _ => 6
                    | GPIO_OpenAsOutput _ _ _ => 7
                    | write _ _ n => n
                    | read _ _ => 5
                    | _ => 0
                    end)
        (fun _ => GPIO_Value_Low)
        (fun i => if (i <? 20)%nat then [buttonPollTimerEventData; uartEventData]
                  else [])
        (fun i => (20 <=? i)%nat)
        (mkUART_Config 115200 UART_FlowControl_None []).

(** Every library call fails. *)
Definition all_fail_env : Env :=
  mkEnv (fun _ _ => -1) (fun _ => GPIO_Value_Low)
        (fun _ => []) (fun _ => false)
        (mkUART_Config 115200 UART_FlowControl_None []).

(** The button cannot be read; everything else works. *)
Definition button_read_fails_env : Env :=
  mkEnv (fun _ c => match c with GPIO_GetValue _ => -1 | _ => 0 end)
        (fun _ => GPIO_Value_Low)
        (fun _ => []) (fun _ => false)
        (mkUART_Config 115200 UART_FlowControl_None []).

(** Five bytes arrive but the LED cannot be set. *)
Definition led_fails_env : Env :=
  mkEnv (fun _ c => match c with
                    | read _ _ => 5
                    | GPIO_SetValue _ _ => -1
                    | _ => 0
                    end)
        (fun _ => GPIO_Value_High)
        (fun _ => []) (fun _ => false)
        (mkUART_Config 115200 UART_FlowControl_None []).

(** While no failure has been flagged, the LED shows the parity of the
    count. *)
Definition led_shows_parity (w : World) : Prop :=
  terminationRequired (globals w) = false ->
  output_level (incomingDataLedGpioFd (globals w)) (trace w) =
    Some (indicator (totalBytesReceived (globals w))).

(** ** Driving the LED and configuring the peripherals *)




(** What the environment lets succeed during initialisation. *)
Definition epoll_created (env : Env) : Prop :=
  forall i, 0 <= answer env i CreateEpollFd.

Definition uart_opened (env : Env) : Prop :=
  forall i id cfg, 0 <= answer env i (UART_Open id cfg).

Definition handler_registered (env : Env) : Prop :=
  forall i epfd fd data mask,
    answer env i (RegisterEventHandlerToEpoll epfd fd data mask) = 0.

Definition button_opened (env : Env) : Prop :=
  forall i id, 0 <= answer env i (GPIO_OpenAsInput id).

Definition timer_created (env : Env) : Prop :=
  forall i epfd period data mask,
    0 <= answer env i (CreateTimerFdAndAddToEpoll epfd period data mask).

Definition led_opened (env : Env) : Prop :=
  forall i id mode initial,
    0 <= answer env i (GPIO_OpenAsOutput id mode initial).

(** * Properties *)

(** ** Basic facts *)

Lemma events_since_app (w w' : World) (evs : list Event) :
  trace w' = trace w ++ evs -> events_since w w' = evs.
Proof.
  intros H. unfold events_since, now. rewrite H.
  rewrite skipn_app, skipn_all, Nat.sub_diag. reflexivity.
Qed.

Lemma size_t_small (z : Z) : 0 <= z < SIZE_MODULUS -> size_t z = z.
Proof. intros H. unfold size_t. apply Z.mod_small. exact H. Qed.


Lemma size_t_add (a b : Z) : size_t (a + size_t b) = size_t (a + b).
Proof. unfold size_t. apply Zplus_mod_idemp_r. Qed.

Lemma GPIO_Value_eqb_eq (a b : GPIO_Value_Type) :
  GPIO_Value_eqb a b = true <-> a = b.
Proof. destruct a, b; simpl; split; congruence. Qed.

Lemma GPIO_Value_eqb_refl (a : GPIO_Value_Type) : GPIO_Value_eqb a a = true.
Proof. destruct a; reflexivity. Qed.

(** ** The send loop *)

(** Whatever the environment does, a finished run of the loop is a
    [send_run]; it changes no global except [terminationRequired], which it
    sets exactly when it gave up. *)
Lemma SendUartMessage_loop_run (fuel : nat) :
  forall env fd data total sent iters w w',
    SendUartMessage_loop fuel fd data total sent iters env w = Some (tt, w') ->
    exists evs failed,
      trace w' = trace w ++ evs /\
      send_run fd data total sent iters evs failed /\
      Forall (answered_by env) evs /\
      globals w' = (if failed then set_terminationRequired true (globals w)
                    else globals w).
Proof.
  induction fuel as [|fuel IH]; intros env fd data total sent iters w w' H.
  - simpl in H. destruct (sent <? total) eqn:E.
    + discriminate.
    + apply Z.ltb_ge in E. unfold perform in H. inversion H; subst; clear H.
      eexists _, false. simpl.
      repeat split; [apply send_done; exact E | ].
      constructor; [exact I | constructor].
  - simpl in H. destruct (sent <? total) eqn:E.
    + apply Z.ltb_lt in E. unfold bind, call in H. simpl in H.
      set (r := answer env (now w)
                  (write fd (skipn (Z.to_nat sent) data)
                         (size_t (total - sent)))) in *.
      destruct (r <? 0) eqn:Er.
      * apply Z.ltb_lt in Er. unfold perform, modify in H. simpl in H.
        inversion H; subst; clear H. simpl.
        eexists _, true. rewrite <- app_assoc. simpl.
        repeat split; [apply send_failed; assumption | ].
        constructor; [exists (now w); reflexivity | ].
        constructor; [exact I | constructor].
      * apply Z.ltb_ge in Er.
        apply IH in H. destruct H as (evs & failed & Ht & Hr & Ha & Hg).
        simpl in Ht, Hg.
        exists (Returned (write fd (skipn (Z.to_nat sent) data)
                                (size_t (total - sent))) r :: evs), failed.
        rewrite Ht, <- app_assoc. simpl.
        repeat split; [apply send_more; assumption | | exact Hg].
        constructor; [exists (now w); reflexivity | exact Ha].
    + apply Z.ltb_ge in E. unfold perform in H. inversion H; subst; clear H.
      eexists _, false. simpl.
      repeat split; [apply send_done; exact E | ].
      constructor; [exact I | constructor].
Qed.

Lemma write_contract_events (env : Env) (evs : list Event) :
  write_contract env -> Forall (answered_by env) evs -> Forall within_count evs.
Proof.
  intros Hc Ha. induction Ha as [|e evs He _ IH]; constructor; [|exact IH].
  destruct e as [c r|c r v|c]; simpl; try exact I.
  destruct c; try exact I. destruct He as [i ->]. apply Hc.
Qed.

Lemma write_progress_events (env : Env) (evs : list Event) :
  write_progress env -> Forall (answered_by env) evs ->
  Forall makes_progress evs.
Proof.
  intros Hp Ha. induction Ha as [|e evs He _ IH]; constructor; [|exact IH].
  destruct e as [c r|c r v|c]; simpl; try exact I.
  destruct c; try exact I. destruct He as [i ->]. intros Hn. apply Hp, Hn.
Qed.

Lemma send_run_failed fd data total sent iters evs failed :
  send_run fd data total sent iters evs failed ->
  existsb is_failed_write evs = failed.
Proof.
  induction 1 as [sent iters Hd|sent iters r Hlt Hr|sent iters r evs failed Hlt Hr _ IH].
  - reflexivity.
  - simpl. apply Z.ltb_lt in Hr. rewrite Hr. reflexivity.
  - simpl. apply Z.ltb_ge in Hr. rewrite Hr. exact IH.
Qed.

Lemma send_run_starts_with_write fd data total sent iters evs failed :
  send_run fd data total sent iters evs failed ->
  sent < total ->
  exists r evs',
    evs = Returned (write fd (skipn (Z.to_nat sent) data)
                          (size_t (total - sent))) r :: evs'.
Proof.
  intros H Hlt. destruct H; [lia | eauto | eauto].
Qed.

Lemma skipn_Z_add {A : Type} (l : list A) (a b : Z) :
  0 <= a -> 0 <= b ->
  skipn (Z.to_nat (a + b)) l = skipn (Z.to_nat b) (skipn (Z.to_nat a) l).
Proof.
  intros Ha Hb. rewrite skipn_skipn. f_equal. lia.
Qed.

Lemma length_skipn_Z {A : Type} (l : list A) (a : Z) :
  0 <= a <= Z.of_nat (List.length l) ->
  Z.of_nat (List.length (skipn (Z.to_nat a) l)) = Z.of_nat (List.length l) - a.
Proof.
  intros H. rewrite length_skipn. lia.
Qed.

(** Byte accounting.  When every [write] returned at most its count, the
    bytes accepted so far and the bytes still to send always make up the
    message; nothing is left exactly when the loop did not give up. *)
Lemma send_run_bytes fd data total sent iters evs failed :
  send_run fd data total sent iters evs failed ->
  total = Z.of_nat (List.length data) -> total < SIZE_MODULUS ->
  0 <= sent <= total ->
  Forall within_count evs ->
  exists unsent,
    skipn (Z.to_nat sent) data = transmitted evs ++ unsent /\
    (failed = false -> unsent = []) /\
    (failed = true -> unsent <> []).
Proof.
  intros H Htot Hmax.
  induction H as [sent iters Hd|sent iters r Hlt Hr|sent iters r evs failed Hlt Hr _ IH];
    intros Hs Hw.
  - exists []. simpl. split; [|split; [reflexivity|discriminate]].
    apply skipn_all2. lia.
  - exists (skipn (Z.to_nat sent) data). simpl.
    apply Z.ltb_lt in Hr. rewrite Hr. simpl.
    split; [reflexivity|split; [discriminate|]].
    intros _ Hnil. apply (f_equal (@List.length ascii)) in Hnil.
    rewrite length_skipn in Hnil. simpl in Hnil. lia.
  - inversion Hw as [|e l Hc Hw']; subst. simpl in Hc.
    rewrite size_t_small in Hc by lia. specialize (Hc ltac:(lia)).
    rewrite size_t_add, size_t_small in IH by lia.
    destruct IH as (unsent & Hsk & Hok & Hko); [lia | exact Hw' | ].
    exists unsent. simpl.
    assert (Er : (r <? 0) = false) by (apply Z.ltb_ge; exact Hr).
    rewrite Er, <- app_assoc, <- Hsk, skipn_Z_add by lia.
    rewrite firstn_skipn. auto.
Qed.

(** Every [write] of the loop goes to the descriptor it was given, and is
    handed exactly the part of the message the UART has not accepted yet. *)
Lemma send_run_buffers fd data total sent iters evs failed :
  send_run fd data total sent iters evs failed ->
  total = Z.of_nat (List.length data) -> total < SIZE_MODULUS ->
  0 <= sent <= total ->
  Forall within_count evs ->
  forall pre fd' buf n r post,
    evs = pre ++ Returned (write fd' buf n) r :: post ->
    fd' = fd /\
    skipn (Z.to_nat sent) data = transmitted pre ++ buf /\
    n = Z.of_nat (List.length buf).
Proof.
  intros H Htot Hmax.
  induction H as [sent iters Hd|sent iters r Hlt Hr|sent iters r evs failed Hlt Hr _ IH];
    intros Hs Hw pre fd' buf n r' post Heq.
  - destruct pre as [|e pre]; simpl in Heq; [discriminate|].
    injection Heq as _ Heq. destruct pre; discriminate.
  - destruct pre as [|e pre]; simpl in Heq.
    + injection Heq as <- <- <- <- _. simpl.
      rewrite size_t_small, length_skipn_Z by lia.
      repeat split; lia.
    + injection Heq as _ Heq. destruct pre as [|e' pre]; simpl in Heq;
        [discriminate|]. injection Heq as _ Heq. destruct pre; discriminate.
  - inversion Hw as [|e l Hc Hw']; subst. simpl in Hc.
    rewrite size_t_small in Hc by lia. specialize (Hc ltac:(lia)).
    rewrite size_t_add, size_t_small in IH by lia.
    destruct pre as [|e pre]; simpl in Heq.
    + injection Heq as <- <- <- <- _. simpl.
      rewrite size_t_small, length_skipn_Z by lia.
      repeat split; lia.
    + injection Heq as <- Heq.
      destruct (IH ltac:(lia) Hw' pre fd' buf n r' post Heq) as (Hfd & Hsk & Hn).
      split; [exact Hfd|split; [|exact Hn]]. simpl.
      assert (Er : (r <? 0) = false) by (apply Z.ltb_ge; exact Hr).
      rewrite Er, <- app_assoc, <- Hsk, skipn_Z_add by lia.
      rewrite firstn_skipn. reflexivity.
Qed.

(** When no [write] returns zero either, each [write] asks for fewer bytes
    than the one before: the running total strictly increases. *)
Lemma send_run_decreasing fd data total sent iters evs failed :
  send_run fd data total sent iters evs failed ->
  total < SIZE_MODULUS -> 0 <= sent <= total ->
  Forall within_count evs -> Forall makes_progress evs ->
  decreasing (write_counts evs) /\
  Forall (fun n => 0 < n <= total - sent) (write_counts evs).
Proof.
  intros H Hmax.
  induction H as [sent iters Hd|sent iters r Hlt Hr|sent iters r evs failed Hlt Hr _ IH];
    intros Hs Hw Hp.
  - simpl. auto.
  - simpl. rewrite size_t_small by lia. split; [exact I|].
    constructor; [lia|constructor].
  - inversion Hw as [|e l Hc Hw']; subst.
    inversion Hp as [|e l Hq Hp']; subst. simpl in Hc, Hq.
    rewrite size_t_small in Hc, Hq by lia. specialize (Hc ltac:(lia)).
    assert (r <> 0) by (apply Hq; lia).
    rewrite size_t_add, size_t_small in IH by lia.
    destruct IH as (Hdec & Hall); [lia | exact Hw' | exact Hp' | ].
    simpl. rewrite size_t_small by lia. split.
    + destruct (write_counts evs) as [|b rest] eqn:Ew; [exact I|].
      split; [|exact Hdec]. inversion Hall; subst. lia.
    + constructor; [lia|].
      eapply Forall_impl; [|exact Hall]. simpl. intros; lia.
Qed.

(** Termination: under the contract of [write] and with no zero-byte
    results, as many iterations as the message has bytes left are enough. *)
Lemma SendUartMessage_loop_terminates (fuel : nat) :
  forall env fd data sent iters w,
    write_contract env -> write_progress env ->
    Z.of_nat (List.length data) < SIZE_MODULUS ->
    0 <= sent <= Z.of_nat (List.length data) ->
    Z.of_nat (List.length data) - sent <= Z.of_nat fuel ->
    exists w',
      SendUartMessage_loop fuel fd data (Z.of_nat (List.length data))
        sent iters env w = Some (tt, w').
Proof.
  induction fuel as [|fuel IH]; intros env fd data sent iters w Hc Hp Hmax Hs Hf.
  - simpl. assert (E : (sent <? Z.of_nat (List.length data)) = false)
      by (apply Z.ltb_ge; lia).
    rewrite E. unfold perform. eauto.
  - simpl. destruct (sent <? Z.of_nat (List.length data)) eqn:E.
    + apply Z.ltb_lt in E. unfold bind, call. simpl.
      rewrite (size_t_small (_ - sent)) by lia.
      set (r := answer env (now w) _).
      assert (Hr : r <= Z.of_nat (List.length data) - sent)
        by (apply Hc; lia).
      assert (Hz : r <> 0) by (apply Hp; lia).
      destruct (r <? 0) eqn:Er.
      * unfold perform, modify. simpl. eauto.
      * apply Z.ltb_ge in Er.
        rewrite size_t_add, size_t_small by lia.
        apply IH; try assumption; lia.
    + unfold perform. eauto.
Qed.

(** A [write] that keeps returning zero keeps the loop going for ever. *)
Lemma SendUartMessage_loop_no_progress (fuel : nat) :
  forall env fd data total sent iters w,
    (forall i buf n, answer env i (write fd buf n) = 0) ->
    0 <= sent < total -> sent < SIZE_MODULUS ->
    SendUartMessage_loop fuel fd data total sent iters env w = None.
Proof.
  induction fuel as [|fuel IH]; intros env fd data total sent iters w H0 Hs Hmax;
    simpl.
  - assert (E : (sent <? total) = true) by (apply Z.ltb_lt; lia).
    rewrite E. reflexivity.
  - assert (E : (sent <? total) = true) by (apply Z.ltb_lt; lia).
    rewrite E. unfold bind, call. simpl. rewrite H0. simpl.
    rewrite size_t_add, Z.add_0_r, size_t_small by lia.
    apply IH; assumption.
Qed.

(** ** The button poll handler *)

Lemma ButtonPollTimerEventHandler_outcome fuel env w w' :
  ButtonPollTimerEventHandler fuel env w = Some (tt, w') ->
  exists evs,
    trace w' = trace w ++ evs /\
    poll_outcome env (globals w) evs (globals w').
Proof.
  unfold ButtonPollTimerEventHandler, bind, get, call, call_level.
  world_simpl.
  set (g := globals w).
  set (c := answer env (now w) (ConsumeTimerFdEvent (buttonPollTimerFd g))).
  destruct (c =? 0) eqn:Ec; world_simpl.
  2:{ apply Z.eqb_neq in Ec. unfold modify. intros H.
      inversion H; subst; clear H. world_simpl.
      eexists. split; [reflexivity|].
      apply poll_timer_error. exact Ec. }
  apply Z.eqb_eq in Ec. rewrite Ec.
  match goal with
  | |- context [answer env ?i (GPIO_GetValue ?fd)] =>
      set (r := answer env i (GPIO_GetValue fd));
      set (v := level env i)
  end.
  destruct (r =? 0) eqn:Er; world_simpl.
  2:{ apply Z.eqb_neq in Er. unfold bind, perform, modify. intros H.
      inversion H; subst; clear H. world_simpl. rewrite <- !app_assoc.
      eexists. split; [reflexivity|]. apply poll_read_error. exact Er. }
  apply Z.eqb_eq in Er. rewrite Er.
  destruct (GPIO_Value_eqb v (buttonState g)) eqn:Ev; world_simpl.
  { apply GPIO_Value_eqb_eq in Ev. unfold ret. intros H.
    inversion H; subst; clear H. world_simpl. rewrite <- !app_assoc.
    eexists. split; [reflexivity|]. rewrite Ev. apply poll_unchanged. }
  destruct (GPIO_Value_eqb v GPIO_Value_Low) eqn:El.
  - apply GPIO_Value_eqb_eq in El. rewrite El in *.
    assert (Hb : buttonState g = GPIO_Value_High)
      by (destruct (buttonState g); [discriminate|reflexivity]).
    match goal with
    | |- context [SendUartMessage fuel ?fd ?m env ?w1] =>
        destruct (SendUartMessage fuel fd m env w1) as [[[] w2]|] eqn:Hs
    end; [|discriminate].
    unfold modify. intros H. inversion H; subst; clear H. world_simpl.
    apply SendUartMessage_loop_run in Hs.
    destruct Hs as (evs & failed & Ht & Hr & Ha & Hg).
    world_simpl. rewrite Ht, Hg, <- !app_assoc.
    eexists. split; [reflexivity|].
    fold g. destruct failed; apply (poll_press env g evs _ Hb Hr Ha).
  - assert (Hv : v = GPIO_Value_High)
      by (destruct v; [discriminate|reflexivity]).
    rewrite Hv in *.
    assert (Hb : buttonState g = GPIO_Value_Low)
      by (destruct (buttonState g); [reflexivity|discriminate]).
    unfold ret, modify. intros H. inversion H; subst; clear H. world_simpl.
    rewrite <- !app_assoc.
    eexists. split; [reflexivity|]. apply poll_release. exact Hb.
Qed.

Lemma strlen_messageToSend : strlen messageToSend = 33.
Proof. reflexivity. Qed.

Lemma length_messageToSend : Z.of_nat (List.length messageToSend) = 33.
Proof. reflexivity. Qed.

(** With a well-behaved [write], the handler returns once the fuel covers
    the message. *)
Lemma ButtonPollTimerEventHandler_returns fuel env w :
  write_contract env -> write_progress env -> (33 <= fuel)%nat ->
  exists w', ButtonPollTimerEventHandler fuel env w = Some (tt, w').
Proof.
  intros Hc Hp Hf.
  unfold ButtonPollTimerEventHandler, bind, get, call, call_level.
  world_simpl.
  destruct (_ =? 0); world_simpl; [|unfold modify; eauto].
  destruct (_ =? 0); world_simpl; [|unfold bind, perform, modify; eauto].
  destruct (GPIO_Value_eqb _ _); world_simpl; [unfold ret; eauto|].
  destruct (GPIO_Value_eqb _ _); [|unfold ret, modify; eauto].
  match goal with
  | |- context [SendUartMessage fuel ?fd ?m env ?w1] =>
      destruct (SendUartMessage_loop_terminates fuel env fd m 0 0 w1 Hc Hp)
        as [w2 Hs]
  end.
  - rewrite length_messageToSend. reflexivity.
  - rewrite length_messageToSend. lia.
  - rewrite length_messageToSend. lia.
  - unfold SendUartMessage. rewrite strlen_messageToSend.
    rewrite length_messageToSend in Hs. rewrite Hs. unfold modify. eauto.
Qed.

Lemma iterate_ButtonPollTimerEventHandler n fuel env :
  forall w w',
    iterate n (ButtonPollTimerEventHandler fuel) env w = Some (tt, w') ->
    exists evs,
      trace w' = trace w ++ evs /\
      poll_outcomes env (globals w) evs (globals w').
Proof.
  induction n as [|n IH]; intros w w' H; simpl in H.
  - unfold ret in H. inversion H; subst. exists []. rewrite app_nil_r.
    split; [reflexivity|constructor].
  - unfold bind in H.
    destruct (ButtonPollTimerEventHandler fuel env w) as [[[] w1]|] eqn:H1;
      [|discriminate].
    apply ButtonPollTimerEventHandler_outcome in H1.
    destruct H1 as (evs & Ht & Ho).
    apply IH in H. destruct H as (rest & Ht' & Hos).
    exists (evs ++ rest). rewrite Ht', Ht, app_assoc.
    split; [reflexivity|]. econstructor; eassumption.
Qed.

Lemma iterate_ButtonPollTimerEventHandler_returns n fuel env :
  write_contract env -> write_progress env -> (33 <= fuel)%nat ->
  forall w,
    exists w', iterate n (ButtonPollTimerEventHandler fuel) env w = Some (tt, w').
Proof.
  intros Hc Hp Hf. induction n as [|n IH]; intros w; simpl.
  - unfold ret. eauto.
  - unfold bind.
    destruct (ButtonPollTimerEventHandler_returns fuel env w Hc Hp Hf)
      as [w1 ->].
    apply IH.
Qed.

Lemma poll_outcome_starts env g evs g' :
  poll_outcome env g evs g' ->
  exists e tl, evs = e :: tl /\ is_poll_start e = true.
Proof. destruct 1; eexists _, _; split; reflexivity. Qed.

Lemma poll_outcomes_starts env g evs g' :
  poll_outcomes env g evs g' -> starts_poll evs.
Proof.
  destruct 1 as [|g evs g1 rest g2 Ho _]; [exact I|].
  destruct (poll_outcome_starts _ _ _ _ Ho) as (e & tl & -> & He). exact He.
Qed.

Lemma sends_before_next_poll_app (a b : list Event) :
  starts_poll b ->
  sends_before_next_poll (a ++ b) = sends_before_next_poll a.
Proof.
  intros Hb. induction a as [|e a IH]; simpl.
  - destruct b as [|e b]; [reflexivity|]. simpl in *. rewrite Hb. reflexivity.
  - rewrite IH. reflexivity.
Qed.

Lemma poll_log_app (a b : list Event) :
  starts_poll b -> poll_log (a ++ b) = poll_log a ++ poll_log b.
Proof.
  intros Hb. induction a as [|e a IH]; [reflexivity|].
  destruct e as [c r|c r v|c]; simpl; try exact IH.
  destruct c; try exact IH.
  destruct (r =? 0); [|exact IH].
  rewrite sends_before_next_poll_app by exact Hb. rewrite IH. reflexivity.
Qed.

Lemma send_run_events fd data total sent iters evs failed :
  send_run fd data total sent iters evs failed -> Forall is_send_event evs.
Proof.
  induction 1; repeat constructor; assumption.
Qed.

Lemma poll_log_send_events (evs : list Event) :
  Forall is_send_event evs -> poll_log evs = [].
Proof.
  induction 1 as [|e evs He _ IH]; [reflexivity|].
  destruct e as [c r|c r v|c]; simpl in *; try exact IH. contradiction.
Qed.

(** One invocation either processes no sample and leaves the recorded state
    alone, or processes one sample, records it, and sends exactly on a press
    edge. *)
Lemma poll_outcome_log env g evs g' :
  poll_outcome env g evs g' ->
  (poll_log evs = [] /\ buttonState g' = buttonState g) \/
  (exists v,
      poll_log evs =
        [(v, negb (GPIO_Value_eqb v (buttonState g))
             && GPIO_Value_eqb v GPIO_Value_Low)] /\
      buttonState g' = v).
Proof.
  destruct 1 as [r Hr|r v Hr| |Hb|evs failed Hb Hs Ha].
  - left. split; reflexivity.
  - left. simpl. apply Z.eqb_neq in Hr. rewrite Hr. split; reflexivity.
  - right. exists (buttonState g). simpl.
    rewrite GPIO_Value_eqb_refl. split; reflexivity.
  - right. exists GPIO_Value_High. simpl. rewrite Hb. split; reflexivity.
  - right. exists GPIO_Value_Low. simpl. rewrite Hb. simpl.
    rewrite (poll_log_send_events _ (send_run_events _ _ _ _ _ _ _ Hs)).
    destruct (send_run_starts_with_write _ _ _ _ _ _ _ Hs ltac:(reflexivity))
      as (r & evs' & ->).
    simpl. split; [reflexivity|]. destruct failed; reflexivity.
Qed.

Lemma last_cons {A : Type} (a : A) (l : list A) (d : A) :
  last (a :: l) d = last l a.
Proof.
  revert a d. induction l as [|b l IH]; intros a d; [reflexivity|].
  change (last (a :: b :: l) d) with (last (b :: l) d).
  rewrite IH. symmetry. apply IH.
Qed.

Lemma poll_outcomes_log env g evs g' :
  poll_outcomes env g evs g' ->
  poll_log evs = edge_log (buttonState g) (map fst (poll_log evs)) /\
  buttonState g' = last (map fst (poll_log evs)) (buttonState g).
Proof.
  induction 1 as [g|g evs g1 rest g2 Ho Hos [IH1 IH2]].
  - split; reflexivity.
  - rewrite poll_log_app by (eapply poll_outcomes_starts; eassumption).
    destruct (poll_outcome_log _ _ _ _ Ho) as [[-> Hg]|(v & -> & Hg)].
    + simpl. rewrite <- Hg. split; assumption.
    + simpl. rewrite Hg in IH1, IH2. rewrite <- IH1.
      split; [reflexivity|].
      rewrite IH2. symmetry.
      apply (last_cons v (map fst (poll_log rest)) (buttonState g)).
Qed.

Lemma now_snoc (g : Globals) (tr : list Event) (e : Event) :
  now (mkWorld g (tr ++ [e])) = S (List.length tr).
Proof. unfold now. simpl. rewrite length_app. simpl. lia. Qed.

Lemma ButtonPollTimerEventHandler_samples fuel env w v :
  samples env w v ->
  ButtonPollTimerEventHandler fuel env w =
    if negb (GPIO_Value_eqb v (buttonState (globals w))) then
      ((if GPIO_Value_eqb v GPIO_Value_Low then
          SendUartMessage fuel (uartFd (globals w)) messageToSend
        else ret tt) ;;
       modify (set_buttonState v)) env (sampled w v)
    else Some (tt, sampled w v).
Proof.
  intros (Hc & Hr & Hv).
  unfold ButtonPollTimerEventHandler, sampled, bind, get, call, call_level.
  world_simpl. rewrite Hc. change (0 =? 0) with true. world_simpl.
  rewrite now_snoc. fold (now w). rewrite Hr, Hv.
  change (0 =? 0) with true. world_simpl.
  rewrite <- app_assoc.
  destruct (GPIO_Value_eqb v (buttonState (globals w))); reflexivity.
Qed.

Lemma ButtonPollTimerEventHandler_press fuel env w w' :
  press_edge env w ->
  ButtonPollTimerEventHandler fuel env w = Some (tt, w') ->
  exists evs failed,
    events_since w w' =
      Returned (ConsumeTimerFdEvent (buttonPollTimerFd (globals w))) 0
      :: ReturnedLevel (GPIO_GetValue (triggerSendButtonGpioFd (globals w))) 0
                       GPIO_Value_Low
      :: evs /\
    send_run (uartFd (globals w)) messageToSend 33 0 0 evs failed /\
    Forall (answered_by env) evs /\
    globals w' =
      set_buttonState GPIO_Value_Low
        (if failed then set_terminationRequired true (globals w)
         else globals w).
Proof.
  intros [Hb Hs] H.
  rewrite (ButtonPollTimerEventHandler_samples fuel env w _ Hs), Hb in H.
  simpl in H. unfold bind in H.
  destruct (SendUartMessage fuel _ _ env _) as [[[] w1]|] eqn:Hsend;
    [|discriminate].
  unfold modify in H. inversion H; subst; clear H. world_simpl.
  apply SendUartMessage_loop_run in Hsend.
  destruct Hsend as (evs & failed & Ht & Hr & Ha & Hg).
  exists evs, failed. unfold sampled in Ht, Hg. world_simpl.
  rewrite strlen_messageToSend in Hr.
  split; [|split; [exact Hr|split; [exact Ha|]]].
  - apply events_since_app. simpl. rewrite Ht, <- app_assoc. reflexivity.
  - rewrite Hg. destruct failed; reflexivity.
Qed.

Lemma decreasing_tail (a : Z) (l : list Z) :
  decreasing (a :: l) -> decreasing l.
Proof. destruct l as [|b l]; [trivial|]. intros [_ H]. exact H. Qed.

Lemma decreasing_below (l : list Z) :
  forall a, decreasing (a :: l) -> Forall (fun n => n < a) l.
Proof.
  induction l as [|b l IH]; intros a Hd; [constructor|].
  destruct Hd as [Hba Hd]. constructor; [exact Hba|].
  eapply Forall_impl; [|apply IH; exact Hd]. simpl. intros n Hn. lia.
Qed.

Lemma decreasing_bounded (l : list Z) :
  forall k,
    0 <= k -> decreasing l -> Forall (fun n => 0 < n <= k) l ->
    Z.of_nat (List.length l) <= k.
Proof.
  induction l as [|a l IH]; intros k Hk Hd Hb.
  - simpl. lia.
  - inversion Hb as [|x y Ha Hl]; subst.
    assert (Hlen : Z.of_nat (List.length l) <= a - 1).
    { apply IH; [lia|eapply decreasing_tail; exact Hd|].
      apply decreasing_below in Hd.
      rewrite Forall_forall in *. intros n Hn.
      specialize (Hd n Hn). specialize (Hl n Hn). simpl in *. lia. }
    change (List.length (a :: l)) with (S (List.length l)). lia.
Qed.

(** ** The serial receive handler *)


Lemma mod2_odd (z : Z) : (z mod 2 =? 1) = Z.odd z.
Proof.
  rewrite Zmod_odd. destruct (Z.odd z); reflexivity.
Qed.

(** The handler when [read] fails. *)
Lemma UartEventHandler_error env w :
  answer env (now w) (read (uartFd (globals w)) receiveBufferSize) < 0 ->
  UartEventHandler env w =
    Some (tt,
          mkWorld (set_terminationRequired true (globals w))
            (trace w ++
             [Returned (read (uartFd (globals w)) receiveBufferSize)
                       (answer env (now w)
                          (read (uartFd (globals w)) receiveBufferSize));
              Performed (Log_Debug "ERROR: Could not read UART: %s (%d)." [])])).
Proof.
  intros H. unfold UartEventHandler, bind, get, call, perform, modify.
  world_simpl. apply Z.ltb_lt in H. rewrite H. world_simpl.
  rewrite <- app_assoc. reflexivity.
Qed.

(** The handler when [read] returns no bytes. *)
Lemma UartEventHandler_empty env w :
  answer env (now w) (read (uartFd (globals w)) receiveBufferSize) = 0 ->
  UartEventHandler env w =
    Some (tt,
          mkWorld (globals w)
            (trace w ++
             [Returned (read (uartFd (globals w)) receiveBufferSize) 0])).
Proof.
  intros H. unfold UartEventHandler, bind, get, call, perform, modify.
  world_simpl. rewrite H. reflexivity.
Qed.

Lemma UartEventHandler_data env w :
  let r := answer env (now w) (read (uartFd (globals w)) receiveBufferSize) in
  0 < r ->
  UartEventHandler env w =
    Some (tt, mkWorld (receive_globals env w r)
                      (trace w ++ receive_events env w r)).
Proof.
  intros r H.
  unfold UartEventHandler, receive_globals, receive_events,
    bind, get, call, perform, modify.
  world_simpl. fold r.
  assert (E1 : (r <? 0) = false) by (apply Z.ltb_ge; lia).
  assert (E2 : (r >? 0) = true) by (apply Z.gtb_lt; lia).
  rewrite E1, E2. world_simpl.
  rewrite size_t_add.
  set (count := size_t (totalBytesReceived (globals w) + r)).
  cbn [totalBytesReceived set_totalBytesReceived incomingDataLedGpioFd].
  rewrite mod2_odd. fold (indicator count).
  unfold now. cbn [trace]. rewrite !length_app. cbn [List.length].
  replace (List.length (trace w) + 1 + 1)%nat
    with (S (S (List.length (trace w)))) by lia.
  destruct (answer env (S (S (List.length (trace w)))) _ =? 0); world_simpl;
    unfold ret, bind; rewrite <- ?app_assoc; reflexivity.
Qed.











(** ** Initialisation and shutdown *)

Lemma InitPeripheralsAndHandlers_outcome env w :
  exists r w' evs,
    InitPeripheralsAndHandlers env w = Some (r, w') /\
    trace w' = trace w ++ evs /\
    init_outcome env (globals w) evs r (globals w').
Proof.
  unfold InitPeripheralsAndHandlers, UART_InitConfig,
    bind, get, call, perform, modify, ret.
  world_simpl.
  init_branch.
  { eexists _, _, _. split; [reflexivity|]. world_simpl.
    rewrite <- ?app_assoc in *. split; [reflexivity|].
    apply init_no_epoll. by_hypothesis. }
  world_simpl. init_branch.
  { eexists _, _, _. split; [reflexivity|]. world_simpl.
    rewrite <- ?app_assoc in *. split; [reflexivity|].
    apply init_no_uart; by_hypothesis. }
  world_simpl.
  cbn [epollFd uartFd set_uartFd set_epollFd].
  init_branch; world_simpl.
  2:{ eexists _, _, _. split; [reflexivity|]. world_simpl.
      rewrite <- ?app_assoc in *. split; [reflexivity|].
      apply init_no_registration; by_hypothesis. }
  rewrite E1. init_branch.
  { eexists _, _, _. split; [reflexivity|]. world_simpl.
    rewrite <- ?app_assoc in *. split; [reflexivity|].
    apply init_no_button; by_hypothesis. }
  world_simpl.
  cbn [epollFd set_triggerSendButtonGpioFd set_uartFd set_epollFd].
  init_branch.
  { eexists _, _, _. split; [reflexivity|]. world_simpl.
    rewrite <- ?app_assoc in *. split; [reflexivity|].
    apply init_no_timer; by_hypothesis. }
  world_simpl. init_branch.
  { eexists _, _, _. split; [reflexivity|]. world_simpl.
    rewrite <- ?app_assoc in *. split; [reflexivity|].
    apply init_no_led; by_hypothesis. }
  eexists _, _, _. split; [reflexivity|]. world_simpl.
  rewrite <- ?app_assoc in *. split; [reflexivity|].
  apply init_ok; by_hypothesis.
Qed.

Lemma ClosePeripheralsAndHandlers_run env w :
  ClosePeripheralsAndHandlers env w =
    Some (tt, mkWorld (globals w)
                (trace w ++ led_off env w ++ close_descriptors (globals w))).
Proof.
  unfold ClosePeripheralsAndHandlers, led_off, close_descriptors,
    bind, get, call, perform, ret.
  world_simpl.
  destruct (incomingDataLedGpioFd (globals w) >=? 0); world_simpl;
    rewrite <- ?app_assoc; reflexivity.
Qed.

(** [main] after a failed initialisation: the flag is raised, the loop is
    skipped and shutdown follows at once. *)
Lemma main_after_failed_init fuel loops env r w1 :
  InitPeripheralsAndHandlers env started = Some (r, w1) ->
  r <> 0 ->
  let w2 := mkWorld (set_terminationRequired true (globals w1)) (trace w1) in
  main fuel loops env initialWorld =
    Some (0, mkWorld (globals w2)
               (trace w1 ++ led_off env w2 ++ close_descriptors (globals w2)
                ++ [Performed (Log_Debug "Application exiting." [])])).
Proof.
  intros Hinit Hr w2.
  unfold main. unfold bind at 1, perform at 1.
  change (mkWorld (globals initialWorld)
            (trace initialWorld ++
             [Performed (Log_Debug "UART application starting." [])]))
    with started.
  unfold bind at 1. rewrite Hinit.
  apply Z.eqb_neq in Hr. rewrite Hr. cbn [negb when].
  unfold bind at 1, modify at 1. fold w2.
  unfold bind at 1.
  assert (Hloop : main_loop fuel loops env w2 = Some (tt, w2)).
  { destruct loops; reflexivity. }
  rewrite Hloop.
  unfold bind at 1. rewrite ClosePeripheralsAndHandlers_run.
  unfold bind, perform, ret. world_simpl.
  rewrite <- !app_assoc. reflexivity.
Qed.

(** ** The claims about the button poll handler and the send routine *)

Lemma edge_log_release recorded samples sent :
  In (GPIO_Value_High, sent) (edge_log recorded samples) -> sent = false.
Proof.
  revert recorded. induction samples as [|s rest IH]; intros recorded H.
  - contradiction.
  - destruct H as [H|H]; [|eapply IH; exact H].
    injection H as -> <-. simpl. apply andb_false_r.
Qed.

(** C1.  Run the button poll handler any number of times.  The samples it
    processed, each paired with whether a UART [write] followed before the
    next poll, are exactly the samples paired with "differs from the state
    recorded just before and is Low"; a sample that is High is never followed
    by a send; and the recorded button state at the end is the last sample
    processed.  The run returns whenever [write] honours its contract and
    never returns zero. *)
Theorem C1_send_iff_press_edge n fuel env w :
  (write_contract env -> write_progress env -> (33 <= fuel)%nat ->
   exists w',
     iterate n (ButtonPollTimerEventHandler fuel) env w = Some (tt, w')) /\
  (forall w',
     iterate n (ButtonPollTimerEventHandler fuel) env w = Some (tt, w') ->
     let log := poll_log (events_since w w') in
     log = edge_log (buttonState (globals w)) (map fst log) /\
     (forall sent, In (GPIO_Value_High, sent) log -> sent = false) /\
     buttonState (globals w') =
       last (map fst log) (buttonState (globals w))).
Proof.
  split.
  - intros Hc Hp Hf.
    apply iterate_ButtonPollTimerEventHandler_returns; assumption.
  - intros w' H log.
    apply iterate_ButtonPollTimerEventHandler in H.
    destruct H as (evs & Ht & Hos).
    unfold log. rewrite (events_since_app _ _ _ Ht).
    destruct (poll_outcomes_log _ _ _ _ Hos) as [Hlog Hlast].
    split; [exact Hlog|split; [|exact Hlast]].
    intros sent Hin. rewrite Hlog in Hin.
    eapply edge_log_release. exact Hin.
Qed.

Lemma scenario_A_env_contract : write_contract scenario_A_env.
Proof. intros i fd buf n Hn. simpl. lia. Qed.

Lemma scenario_A_env_progress : write_progress scenario_A_env.
Proof. intros i fd buf n Hn. simpl. lia. Qed.

Lemma C1_send_iff_press_edge_witness :
  exists w',
    iterate 5 (ButtonPollTimerEventHandler 33) scenario_A_env initialWorld
      = Some (tt, w') /\
    poll_log (events_since initialWorld w') =
      [(GPIO_Value_High, false); (GPIO_Value_Low, true);
       (GPIO_Value_Low, false); (GPIO_Value_High, false);
       (GPIO_Value_Low, true)] /\
    buttonState (globals w') = GPIO_Value_Low.
Proof.
  destruct (C1_send_iff_press_edge 5 33 scenario_A_env initialWorld)
    as [Hreturns Hlog].
  destruct (Hreturns scenario_A_env_contract scenario_A_env_progress
                     (le_n 33)) as [w' Hw'].
  exists w'. split; [exact Hw'|].
  destruct (Hlog w' Hw') as (_ & _ & Hlast).
  vm_compute in Hw'. injection Hw' as <-.
  split; reflexivity.
Defined.

(** C2, counterexample.  On a press edge, with a [write] that accepts ten
    bytes and a second [write] that fails, the handler has put the first ten
    bytes of the message on the UART when it raises the flag: neither the
    whole message nor nothing. *)
Lemma C2_all_or_nothing_counterexample :
  press_edge partial_write_env initialWorld /\
  write_contract partial_write_env /\
  ~ sent_in_full_or_not_at_all 33 partial_write_env initialWorld.
Proof.
  split; [repeat split|split].
  - intros i fd buf n Hn. simpl. destruct (i =? 2)%nat; lia.
  - intros H.
    destruct (ButtonPollTimerEventHandler 33 partial_write_env initialWorld)
      as [[[] w']|] eqn:Hrun; [|discriminate].
    specialize (H w' Hrun).
    vm_compute in Hrun. injection Hrun as <-.
    vm_compute in H. destruct H as [H|[H _]]; discriminate.
Qed.

(** C2, amended.  On a press edge, with a [write] that honours its contract:
    every [write] of the handler goes to the UART descriptor and is handed
    exactly the part of the literal the UART has not accepted yet, so the
    first one is handed the whole literal; and either no [write] failed, the
    bytes accepted are the whole message and the flag is untouched, or a
    [write] failed, the flag is set, and the bytes accepted by the earlier
    calls are a proper prefix of the message.  The handler returns whenever
    no [write] returns zero. *)
Theorem C2_full_or_proper_prefix fuel env w :
  press_edge env w -> write_contract env ->
  (write_progress env -> (33 <= fuel)%nat ->
   exists w', ButtonPollTimerEventHandler fuel env w = Some (tt, w')) /\
  (forall w',
     ButtonPollTimerEventHandler fuel env w = Some (tt, w') ->
     exists evs,
       events_since w w' =
         Returned (ConsumeTimerFdEvent (buttonPollTimerFd (globals w))) 0
         :: ReturnedLevel
              (GPIO_GetValue (triggerSendButtonGpioFd (globals w))) 0
              GPIO_Value_Low
         :: evs /\
       (forall pre fd buf n r post,
           evs = pre ++ Returned (write fd buf n) r :: post ->
           fd = uartFd (globals w) /\
           messageToSend = transmitted pre ++ buf /\
           n = Z.of_nat (List.length buf)) /\
       ((existsb is_failed_write evs = false /\
         transmitted evs = messageToSend /\
         terminationRequired (globals w') = terminationRequired (globals w))
        \/
        (existsb is_failed_write evs = true /\
         terminationRequired (globals w') = true /\
         exists unsent,
           unsent <> [] /\ messageToSend = transmitted evs ++ unsent))).
Proof.
  intros Hedge Hc. split.
  - intros Hp Hf. apply ButtonPollTimerEventHandler_returns; assumption.
  - intros w' H.
    destruct (ButtonPollTimerEventHandler_press _ _ _ _ Hedge H)
      as (evs & failed & Hev & Hrun & Ha & Hg).
    pose proof (write_contract_events _ _ Hc Ha) as Hw.
    exists evs. split; [exact Hev|]. split.
    + intros pre fd buf n r post Heq.
      destruct (send_run_buffers _ _ _ _ _ _ _ Hrun
                  (eq_sym length_messageToSend) eq_refl
                  ltac:(lia) Hw pre fd buf n r post Heq)
        as (Hfd & Hsk & Hn).
      auto.
    + destruct (send_run_bytes _ _ _ _ _ _ _ Hrun
                  (eq_sym length_messageToSend) eq_refl ltac:(lia) Hw)
        as (unsent & Hsk & Hok & Hko).
      simpl in Hsk.
      rewrite (send_run_failed _ _ _ _ _ _ _ Hrun).
      destruct failed.
      * right. split; [reflexivity|]. rewrite Hg. split; [reflexivity|].
        exists unsent. split; [apply Hko; reflexivity|exact Hsk].
      * left. split; [reflexivity|]. rewrite Hg.
        rewrite (Hok eq_refl), app_nil_r in Hsk. auto.
Qed.

Lemma C2_full_or_proper_prefix_witness :
  exists w',
    ButtonPollTimerEventHandler 33 partial_write_env initialWorld
      = Some (tt, w') /\
    terminationRequired (globals w') = true /\
    transmitted (events_since initialWorld w') = firstn 10 messageToSend.
Proof.
  assert (Hedge : press_edge partial_write_env initialWorld)
    by (repeat split).
  assert (Hc : write_contract partial_write_env)
    by (intros i fd buf n Hn; simpl; destruct (i =? 2)%nat; lia).
  destruct (C2_full_or_proper_prefix 33 partial_write_env initialWorld
              Hedge Hc) as [_ Hrun].
  destruct (ButtonPollTimerEventHandler 33 partial_write_env initialWorld)
    as [[[] w']|] eqn:H; [|discriminate].
  destruct (Hrun w' eq_refl) as (evs & _ & _ & _).
  exists w'. split; [reflexivity|].
  vm_compute in H. injection H as <-. split; reflexivity.
Defined.

Lemma strlen_small (data : c_string) :
  Z.of_nat (List.length data) < SIZE_MODULUS ->
  strlen data = Z.of_nat (List.length data).
Proof. intros H. unfold strlen. apply size_t_small. lia. Qed.

(** C9.  Take any message shorter than [2^32] bytes and a [write] that
    honours its contract and never returns zero.  With at least as many
    iterations allowed as the message has bytes, [SendUartMessage] returns;
    the counts it asks [write] for strictly decrease from one call to the
    next (the running total strictly increases), so there are at most as many
    calls as bytes; and when no call failed the bytes accepted are the whole
    message.  With a [write] that always returns zero and a message that is
    not empty, no number of iterations is enough. *)
Theorem C9_send_loop_terminates env fd data w :
  write_contract env -> write_progress env ->
  Z.of_nat (List.length data) < SIZE_MODULUS ->
  (forall fuel,
      (List.length data <= fuel)%nat ->
      exists w',
        SendUartMessage fuel fd data env w = Some (tt, w') /\
        decreasing (write_counts (events_since w w')) /\
        (List.length (write_counts (events_since w w'))
           <= List.length data)%nat /\
        (existsb is_failed_write (events_since w w') = false ->
         transmitted (events_since w w') = data)) /\
  (forall stuck fuel,
      (forall i buf n, answer stuck i (write fd buf n) = 0) -> data <> [] ->
      SendUartMessage fuel fd data stuck w = None).
Proof.
  intros Hc Hp Hmax. split.
  - intros fuel Hf. unfold SendUartMessage. rewrite strlen_small by exact Hmax.
    destruct (SendUartMessage_loop_terminates fuel env fd data 0 0 w Hc Hp Hmax)
      as [w' Hrun]; [lia|lia|].
    exists w'. split; [exact Hrun|].
    apply SendUartMessage_loop_run in Hrun.
    destruct Hrun as (evs & failed & Ht & Hrun & Ha & _).
    rewrite (events_since_app _ _ _ Ht).
    pose proof (write_contract_events _ _ Hc Ha) as Hw.
    pose proof (write_progress_events _ _ Hp Ha) as Hq.
    destruct (send_run_decreasing _ _ _ _ _ _ _ Hrun Hmax ltac:(lia) Hw Hq)
      as [Hdec Hall].
    split; [exact Hdec|split].
    + rewrite Z.sub_0_r in Hall.
      pose proof (decreasing_bounded _ (Z.of_nat (List.length data))
                    ltac:(lia) Hdec Hall).
      lia.
    + intros Hok.
      destruct (send_run_bytes _ _ _ _ _ _ _ Hrun eq_refl Hmax ltac:(lia) Hw)
        as (unsent & Hsk & Hnone & _).
      rewrite (send_run_failed _ _ _ _ _ _ _ Hrun) in Hok.
      rewrite (Hnone Hok), app_nil_r in Hsk. symmetry. exact Hsk.
  - intros stuck fuel Hzero Hne. unfold SendUartMessage.
    rewrite strlen_small by exact Hmax.
    apply SendUartMessage_loop_no_progress; [exact Hzero| |reflexivity].
    destruct data; [congruence|]. simpl List.length. lia.
Qed.

Lemma C9_send_loop_terminates_witness :
  exists w',
    SendUartMessage 33 3 messageToSend scenario_A_env initialWorld
      = Some (tt, w') /\
    write_counts (events_since initialWorld w') = [33].
Proof.
  destruct (C9_send_loop_terminates scenario_A_env 3 messageToSend initialWorld
              scenario_A_env_contract scenario_A_env_progress eq_refl)
    as [Hreturns _].
  destruct (Hreturns 33%nat (le_n 33)) as (w' & Hrun & _).
  exists w'. split; [exact Hrun|].
  vm_compute in Hrun. injection Hrun as <-. reflexivity.
Defined.

(** C10.  On a press edge whose send gives up on a failed [write], the
    handler still records the sample: the globals it leaves are those it
    found with the flag set and the button state Low, nothing else changed.
    A following poll that reads Low again therefore sends nothing and changes
    nothing: it only consumes its timer event and reads the button. *)
Theorem C10_failed_send_records_press fuel env w w' :
  press_edge env w ->
  ButtonPollTimerEventHandler fuel env w = Some (tt, w') ->
  existsb is_failed_write (events_since w w') = true ->
  globals w' =
    set_buttonState GPIO_Value_Low
      (set_terminationRequired true (globals w)) /\
  (forall fuel' env',
      samples env' w' GPIO_Value_Low ->
      ButtonPollTimerEventHandler fuel' env' w' =
        Some (tt, sampled w' GPIO_Value_Low)) /\
  existsb is_write (events_since w' (sampled w' GPIO_Value_Low)) = false /\
  globals (sampled w' GPIO_Value_Low) = globals w'.
Proof.
  intros Hedge Hrun Hfail.
  destruct (ButtonPollTimerEventHandler_press _ _ _ _ Hedge Hrun)
    as (evs & failed & Hev & Hsend & _ & Hg).
  rewrite Hev in Hfail. simpl in Hfail.
  rewrite (send_run_failed _ _ _ _ _ _ _ Hsend) in Hfail. subst failed.
  split; [exact Hg|split; [|split]].
  - intros fuel' env' Hs.
    rewrite (ButtonPollTimerEventHandler_samples fuel' env' w' _ Hs), Hg.
    reflexivity.
  - erewrite events_since_app by (unfold sampled; reflexivity).
    reflexivity.
  - reflexivity.
Qed.

Lemma C10_failed_send_records_press_witness :
  exists w',
    ButtonPollTimerEventHandler 1 failing_write_env initialWorld
      = Some (tt, w') /\
    globals w' =
      set_buttonState GPIO_Value_Low
        (set_terminationRequired true initialGlobals) /\
    ButtonPollTimerEventHandler 1 failing_write_env w' =
      Some (tt, sampled w' GPIO_Value_Low).
Proof.
  destruct (ButtonPollTimerEventHandler 1 failing_write_env initialWorld)
    as [[[] w']|] eqn:Hrun; [|discriminate].
  assert (Hedge : press_edge failing_write_env initialWorld)
    by (repeat split).
  assert (Hfail : existsb is_failed_write (events_since initialWorld w') = true)
    by (vm_compute in Hrun; injection Hrun as <-; reflexivity).
  destruct (C10_failed_send_records_press 1 failing_write_env initialWorld w'
              Hedge Hrun Hfail) as (Hg & Hnext & _ & _).
  exists w'. split; [reflexivity|]. split; [exact Hg|].
  apply Hnext. repeat split.
Defined.

(** ** The claims about the serial receive handler *)




Lemma output_level_from_app fd (a b : list Event) :
  forall current,
    output_level_from fd current (a ++ b) =
      output_level_from fd (output_level_from fd current a) b.
Proof.
  induction a as [|e a IH]; intros current; [reflexivity|].
  destruct e as [c r|c r v|c]; simpl; try apply IH.
  destruct c; simpl; apply IH.
Qed.







(** Receives of 5 and then 4 bytes leave the counter at 9 and the LED on. *)
Example scenario_B_five_then_four :
  exists w',
    iterate 2 UartEventHandler scenario_B_odd_env initialWorld
      = Some (tt, w') /\
    totalBytesReceived (globals w') = 9 /\
    led_requests (trace w') = [GPIO_Value_Low; GPIO_Value_Low].
Proof. eexists. split; [reflexivity|]. split; reflexivity. Qed.

Lemma read_counts_receive_events env w r :
  read_counts (receive_events env w r) = [receiveBufferSize].
Proof.
  unfold receive_events. simpl. destruct (_ =? 0); reflexivity.
Qed.

(** C4.  Every invocation of the serial receive handler returns and issues
    exactly one [read], on the UART descriptor, for 256 bytes.  When the
    [read] returns zero, nothing else happens: no other call, no global
    changed.  When it returns a negative result, the handler logs, sets the
    flag and does nothing more. *)
Theorem C4_one_bounded_read env w :
  let g := globals w in
  let r := answer env (now w) (read (uartFd g) receiveBufferSize) in
  exists w' rest,
    UartEventHandler env w = Some (tt, w') /\
    receiveBufferSize = 256 /\
    events_since w w' = Returned (read (uartFd g) receiveBufferSize) r :: rest /\
    read_counts (events_since w w') = [256] /\
    (r = 0 -> rest = [] /\ globals w' = g) /\
    (r < 0 ->
     rest = [Performed (Log_Debug "ERROR: Could not read UART: %s (%d)." [])]
     /\ globals w' = set_terminationRequired true g).
Proof.
  intros g r.
  destruct (Z.lt_trichotomy r 0) as [Hneg|[Hzero|Hpos]].
  - eexists _, _. split; [apply UartEventHandler_error; exact Hneg|].
    erewrite events_since_app by reflexivity. fold g r.
    repeat split; try reflexivity; intros; lia.
  - eexists _, _. split; [apply UartEventHandler_empty; exact Hzero|].
    erewrite events_since_app by reflexivity. fold g r. rewrite Hzero.
    repeat split; try reflexivity; intros; lia.
  - eexists _, _. split; [apply UartEventHandler_data; exact Hpos|].
    erewrite events_since_app by reflexivity. fold g r.
    split; [reflexivity|]. split; [reflexivity|].
    split; [apply read_counts_receive_events|]. split; intros; lia.
Qed.

(** C8.  When the [read] of the serial receive handler returns a negative
    result, the handler returns with [totalBytesReceived] as it was and no
    request to the LED; the globals differ from those before in
    [terminationRequired] only. *)
Theorem C8_read_error_keeps_state env w :
  answer env (now w) (read (uartFd (globals w)) receiveBufferSize) < 0 ->
  exists w',
    UartEventHandler env w = Some (tt, w') /\
    globals w' = set_terminationRequired true (globals w) /\
    totalBytesReceived (globals w') = totalBytesReceived (globals w) /\
    led_requests (events_since w w') = [].
Proof.
  intros H. eexists. split; [apply UartEventHandler_error; exact H|].
  erewrite events_since_app by reflexivity.
  repeat split.
Qed.

Lemma C8_read_error_keeps_state_witness :
  exists w',
    UartEventHandler failing_read_env initialWorld = Some (tt, w') /\
    globals w' = set_terminationRequired true initialGlobals.
Proof.
  destruct (C8_read_error_keeps_state failing_read_env initialWorld)
    as (w' & Hrun & Hg & _).
  - reflexivity.
  - exists w'. split; [exact Hrun|exact Hg].
Defined.

(** ** The claims about initialisation and shutdown *)

(** C5, counterexample.  In scenario C the LED was never opened and its
    descriptor holds -1 when shutdown begins.  Shutdown then does not touch
    the LED: its first action is the log line before the releases. *)
Lemma C5_led_guard_counterexample :
  incomingDataLedGpioFd (globals scenario_C_shutdown) = -1 /\
  ~ shutdown_starts_with_led_off scenario_C_env scenario_C_shutdown.
Proof.
  split; [reflexivity|].
  intros (w' & r & rest & Hrun & Hev).
  rewrite ClosePeripheralsAndHandlers_run in Hrun.
  injection Hrun as <-.
  erewrite events_since_app in Hev by reflexivity.
  vm_compute in Hev. discriminate Hev.
Qed.

Lemma leb_0_true (a : Z) : 0 <= a -> (0 <=? a) = true.
Proof. intros H. apply Z.leb_le. exact H. Qed.

(** C5, amended.  Shutdown always returns and changes no global, whatever
    [GPIO_SetValue] answers.  Its events are: when the LED descriptor is
    valid (not negative), a request to set the LED High, first of all; then
    the log line and the five releases, of the LED, the poll timer, the
    button, the serial port and the epoll descriptor.  After a successful
    initialisation the descriptors released are the descriptors acquired,
    in the reverse order. *)
Theorem C5_shutdown_order env w :
  exists w',
    ClosePeripheralsAndHandlers env w = Some (tt, w') /\
    globals w' = globals w /\
    let g := globals w in
    events_since w w' =
      (if incomingDataLedGpioFd g >=? 0 then
         [Returned (GPIO_SetValue (incomingDataLedGpioFd g) GPIO_Value_High)
                   (answer env (now w)
                      (GPIO_SetValue (incomingDataLedGpioFd g) GPIO_Value_High))]
       else []) ++
      [Performed (Log_Debug "Closing file descriptors." []);
       Performed (CloseFdAndPrintError (incomingDataLedGpioFd g)
                                       "IncomingDataLedGpio");
       Performed (CloseFdAndPrintError (buttonPollTimerFd g) "ButtonPollTimer");
       Performed (CloseFdAndPrintError (triggerSendButtonGpioFd g)
                                       "TriggerSendButtonGpio");
       Performed (CloseFdAndPrintError (uartFd g) "Uart");
       Performed (CloseFdAndPrintError (epollFd g) "Epoll")] /\
    (forall env0 w0,
        InitPeripheralsAndHandlers env0 w0 = Some (0, w) ->
        released (events_since w w') = rev (acquired (events_since w0 w))).
Proof.
  eexists. split; [apply ClosePeripheralsAndHandlers_run|].
  split; [reflexivity|]. cbv zeta.
  erewrite events_since_app by reflexivity.
  split; [reflexivity|].
  intros env0 w0 Hinit.
  destruct (InitPeripheralsAndHandlers_outcome env0 w0)
    as (r & w1 & evs & Hrun & Ht & Hout).
  rewrite Hinit in Hrun. injection Hrun as <- <-.
  rewrite (events_since_app _ _ _ Ht).
  inversion Hout as [ | | | | | |e u b t l He Hu Hb Htm Hl Hevs Hr Hg].
  unfold init_led, init_timer, init_button, init_registration, init_uart,
    init_epoll. simpl.
  rewrite !leb_0_true by assumption. simpl.
  unfold led_off. rewrite <- Hg. simpl.
  destruct (l >=? 0); reflexivity.
Qed.

(** C6.  When [InitPeripheralsAndHandlers] reports a failure, [main] returns
    with the flag set; no wait on the dispatcher was ever issued; what
    follows the events of initialisation is the shutdown, and every
    descriptor acquired during initialisation is among those it releases. *)
Theorem C6_failed_init_releases_everything fuel loops env r w1 :
  InitPeripheralsAndHandlers env started = Some (r, w1) ->
  r <> 0 ->
  exists w' shutdown,
    main fuel loops env initialWorld = Some (0, w') /\
    terminationRequired (globals w') = true /\
    existsb is_wait (trace w') = false /\
    trace w' = trace w1 ++ shutdown /\
    incl (acquired (trace w1)) (released shutdown).
Proof.
  intros Hinit Hr.
  destruct (InitPeripheralsAndHandlers_outcome env started)
    as (r' & w1' & evs & Hrun & Ht & Hout).
  rewrite Hinit in Hrun. injection Hrun as <- <-.
  set (w2 := mkWorld (set_terminationRequired true (globals w1)) (trace w1)).
  exists (mkWorld (globals w2)
            (trace w1 ++ led_off env w2 ++ close_descriptors (globals w2)
             ++ [Performed (Log_Debug "Application exiting." [])])),
         (led_off env w2 ++ close_descriptors (globals w2)
          ++ [Performed (Log_Debug "Application exiting." [])]).
  split; [apply (main_after_failed_init _ _ _ _ _ Hinit Hr)|].
  world_simpl. split; [reflexivity|].
  split; [|split; [reflexivity|]].
  - rewrite !existsb_app.
    assert (Hevs : existsb is_wait (trace w1) = false).
    { rewrite Ht, existsb_app. inversion Hout; subst; reflexivity. }
    rewrite Hevs. unfold led_off. simpl.
    destruct (_ >=? 0); reflexivity.
  - rewrite Ht. unfold w2, led_off, close_descriptors. world_simpl.
    inversion Hout as
      [e He Hevs Hres Hg
      |e u He Hu Hevs Hres Hg
      |e u x He Hu Hx Hevs Hres Hg
      |e u b He Hu Hb Hevs Hres Hg
      |e u b t He Hu Hb Htm Hevs Hres Hg
      |e u b t l He Hu Hb Htm Hl Hevs Hres Hg
      |e u b t l He Hu Hb Htm Hl Hevs Hres Hg];
      try (exfalso; apply Hr; symmetry; exact Hres);
      unfold init_led, init_timer, init_button, init_registration, init_uart,
        init_epoll; simpl;
      repeat match goal with
             | H : 0 <= ?a |- context [0 <=? ?a] =>
                 rewrite (leb_0_true a H)
             | H : ?a < 0 |- context [0 <=? ?a] =>
                 replace (0 <=? a) with false
                   by (symmetry; apply Z.leb_gt; exact H)
             end;
      simpl;
      try match goal with
          | |- context [?a >=? 0] => destruct (a >=? 0)
          end;
      simpl;
      intros fd Hin; simpl in Hin;
      repeat match goal with
             | H : _ \/ _ |- _ => destruct H
             | H : False |- _ => contradiction
             end;
      subst fd; simpl; tauto.
Qed.

Lemma C6_failed_init_releases_everything_witness :
  exists w',
    main 0 0 scenario_C_env initialWorld = Some (0, w') /\
    terminationRequired (globals w') = true /\
    acquired (trace w') = [3; 4; 5; 6] /\
    released (trace w') = [-1; 6; 5; 4; 3].
Proof.
  destruct (InitPeripheralsAndHandlers scenario_C_env started)
    as [[r w1]|] eqn:Hinit; [|discriminate].
  assert (Hr : r <> 0)
    by (vm_compute in Hinit; injection Hinit as <- _; discriminate).
  destruct (C6_failed_init_releases_everything 0 0 scenario_C_env r w1
              Hinit Hr) as (w' & shutdown & Hmain & Hflag & _).
  exists w'. split; [exact Hmain|]. split; [exact Hflag|].
  vm_compute in Hmain. injection Hmain as <-. split; reflexivity.
Defined.

Lemma InitPeripheralsAndHandlers_answered env w :
  exists r w' evs,
    InitPeripheralsAndHandlers env w = Some (r, w') /\
    trace w' = trace w ++ evs /\
    Forall (answered_by env) evs.
Proof.
  unfold InitPeripheralsAndHandlers, UART_InitConfig,
    bind, get, call, perform, modify, ret.
  world_simpl.
  repeat (init_branch; world_simpl;
          cbn [epollFd uartFd set_uartFd set_epollFd
               set_triggerSendButtonGpioFd]);
    eexists _, _, _; (split; [reflexivity|]); world_simpl;
    rewrite <- ?app_assoc; (split; [reflexivity|]);
    repeat (constructor; [first [exact I | eexists; reflexivity]|]);
    constructor.
Qed.

Lemma answered_in env evs c r :
  Forall (answered_by env) evs -> In (Returned c r) evs ->
  exists i, r = answer env i c.
Proof.
  intros Ha Hin. rewrite Forall_forall in Ha. apply (Ha _ Hin).
Qed.

(** Replace the results recorded in an explicit list of events by the
    answers of the environment they came from. *)
Ltac split_answers :=
  repeat match goal with
         | H : Forall (answered_by _) (_ :: _) |- _ =>
             inversion H; clear H; subst
         | H : Forall (answered_by _) [] |- _ => clear H
         | H : answered_by _ (Returned _ _) |- _ =>
             simpl in H; destruct H as [? H]
         | H : answered_by _ (Performed _) |- _ => clear H
         end;
  subst.

(** A failure recorded during initialisation contradicts what the
    environment lets succeed. *)
Ltac refute_result :=
  match goal with
  | Hneg : answer _ ?i CreateEpollFd < 0, Hok : epoll_created _ |- _ =>
      pose proof (Hok i); lia
  | Hneg : answer _ ?i (UART_Open ?a ?b) < 0, Hok : uart_opened _ |- _ =>
      pose proof (Hok i a b); lia
  | Hneg : answer _ ?i (RegisterEventHandlerToEpoll ?a ?b ?c ?d) <> 0,
    Hok : handler_registered _ |- _ =>
      apply Hneg; apply Hok
  | Hneg : answer _ ?i (GPIO_OpenAsInput ?a) < 0, Hok : button_opened _ |- _ =>
      pose proof (Hok i a); lia
  | Hneg : answer _ ?i (CreateTimerFdAndAddToEpoll ?a ?b ?c ?d) < 0,
    Hok : timer_created _ |- _ =>
      pose proof (Hok i a b c d); lia
  | Hneg : answer _ ?i (GPIO_OpenAsOutput ?a ?b ?c) < 0,
    Hok : led_opened _ |- _ =>
      pose proof (Hok i a b c); lia
  end.

(** How far initialisation gets, given what the environment lets succeed. *)
Lemma init_outcome_progress env g evs r g' :
  init_outcome env g evs r g' -> Forall (answered_by env) evs ->
  (epoll_created env ->
   exists fd,
     In (Returned (UART_Open MT3620_RDB_HEADER2_ISU0_UART
                     (mkUART_Config 9600 UART_FlowControl_None
                                    (otherFields (initialConfig env)))) fd)
        evs) /\
  (epoll_created env -> uart_opened env -> handler_registered env ->
   button_opened env ->
   exists epfd fd,
     In (Returned (CreateTimerFdAndAddToEpoll epfd (mkTimespec 0 1000000)
                     buttonPollTimerEventData EPOLLIN) fd) evs) /\
  (epoll_created env -> uart_opened env -> handler_registered env ->
   button_opened env -> timer_created env ->
   exists fd,
     In (Returned (GPIO_OpenAsOutput MT3620_RDB_LED2_RED
                     GPIO_OutputMode_PushPull GPIO_Value_High) fd) evs) /\
  (epoll_created env -> uart_opened env -> handler_registered env ->
   button_opened env -> timer_created env -> led_opened env -> r = 0).
Proof.
  intros Hout Ha.
  destruct Hout;
    unfold init_led, init_timer, init_button, init_registration, init_uart,
      init_epoll in *;
    simpl in Ha; split_answers;
    (split; [intros He|
     split; [intros He Hu Hx Hb|
     split; [intros He Hu Hx Hb Ht|intros He Hu Hx Hb Ht Hl]]]);
    try (exfalso; refute_result);
    try reflexivity;
    simpl; eauto 12.
Qed.

(** C7.  Initialisation always returns, and it configures the peripherals as
    follows.  Whatever the environment answers, every [UART_Open] it issues
    is for the ISU0 UART at 9600 baud without flow control; every
    [CreateTimerFdAndAddToEpoll] it issues is for the button poll handler
    with a period of 0 s and 1000000 ns, one millisecond; every
    [GPIO_OpenAsOutput] it issues is for the red LED 2 with the initial value
    High.  And it does issue them: the UART is opened so whenever the epoll
    descriptor can be created; the timer is created so whenever, in addition,
    the UART can be opened and registered and the button opened; the LED is
    opened so whenever, in addition, the timer can be created; and when the
    LED can be opened too, initialisation returns 0.  When it returns 0 it
    has issued all three. *)
Theorem C7_initialisation_parameters env w :
  exists r w',
    InitPeripheralsAndHandlers env w = Some (r, w') /\
    let evs := events_since w w' in
    (forall id cfg fd,
        In (Returned (UART_Open id cfg) fd) evs ->
        id = MT3620_RDB_HEADER2_ISU0_UART /\
        baudRate cfg = 9600 /\
        flowControl cfg = UART_FlowControl_None) /\
    (forall epfd period data mask fd,
        In (Returned (CreateTimerFdAndAddToEpoll epfd period data mask) fd)
           evs ->
        period = mkTimespec 0 1000000 /\
        timespec_nanoseconds period = 1000000 /\
        data = buttonPollTimerEventData) /\
    (forall id mode initial fd,
        In (Returned (GPIO_OpenAsOutput id mode initial) fd) evs ->
        id = MT3620_RDB_LED2_RED /\ initial = GPIO_Value_High) /\
    (r = 0 ->
     (exists cfg fd,
         In (Returned (UART_Open MT3620_RDB_HEADER2_ISU0_UART cfg) fd) evs) /\
     (exists epfd period mask fd,
         In (Returned (CreateTimerFdAndAddToEpoll epfd period
                         buttonPollTimerEventData mask) fd) evs) /\
     (exists mode fd,
         In (Returned (GPIO_OpenAsOutput MT3620_RDB_LED2_RED mode
                         GPIO_Value_High) fd) evs)) /\
    (epoll_created env ->
     exists fd,
       In (Returned (UART_Open MT3620_RDB_HEADER2_ISU0_UART
                       (mkUART_Config 9600 UART_FlowControl_None
                                      (otherFields (initialConfig env)))) fd)
          evs) /\
    (epoll_created env -> uart_opened env -> handler_registered env ->
     button_opened env ->
     exists epfd fd,
       In (Returned (CreateTimerFdAndAddToEpoll epfd (mkTimespec 0 1000000)
                       buttonPollTimerEventData EPOLLIN) fd) evs) /\
    (epoll_created env -> uart_opened env -> handler_registered env ->
     button_opened env -> timer_created env ->
     exists fd,
       In (Returned (GPIO_OpenAsOutput MT3620_RDB_LED2_RED
                       GPIO_OutputMode_PushPull GPIO_Value_High) fd) evs) /\
    (epoll_created env -> uart_opened env -> handler_registered env ->
     button_opened env -> timer_created env -> led_opened env -> r = 0).
Proof.
  destruct (InitPeripheralsAndHandlers_outcome env w)
    as (r & w' & evs & Hrun & Ht & Hout).
  destruct (InitPeripheralsAndHandlers_answered env w)
    as (r' & w'' & evs' & Hrun' & Ht' & Ha).
  rewrite Hrun in Hrun'. injection Hrun' as <- <-.
  rewrite Ht in Ht'. apply app_inv_head in Ht'. subst evs'.
  exists r, w'. split; [exact Hrun|].
  rewrite (events_since_app _ _ _ Ht). cbv zeta.
  split; [|split; [|split; [|split]]].
  - intros id cfg fd Hin.
    inversion Hout; subst;
      unfold init_led, init_timer, init_button, init_registration, init_uart,
        init_epoll in Hin;
      simpl in Hin;
      repeat (destruct Hin as [Hin|Hin]; try discriminate Hin;
              try (injection Hin as <- <- _; repeat split));
      contradiction.
  - intros epfd period data mask fd Hin.
    inversion Hout; subst;
      unfold init_led, init_timer, init_button, init_registration, init_uart,
        init_epoll in Hin;
      simpl in Hin;
      repeat (destruct Hin as [Hin|Hin]; try discriminate Hin;
              try (injection Hin as _ <- <- _ _; repeat split));
      contradiction.
  - intros id mode initial fd Hin.
    inversion Hout; subst;
      unfold init_led, init_timer, init_button, init_registration, init_uart,
        init_epoll in Hin;
      simpl in Hin;
      repeat (destruct Hin as [Hin|Hin]; try discriminate Hin;
              try (injection Hin as <- _ <- _; repeat split));
      contradiction.
  - intros Hr. inversion Hout; subst; try discriminate.
    unfold init_led, init_timer, init_button, init_registration, init_uart,
      init_epoll. simpl.
    split; [|split].
    + eexists _, _. right. right. left. reflexivity.
    + eexists _, _, _, _. do 6 right. left. reflexivity.
    + eexists _, _. do 8 right. left. reflexivity.
  - apply (init_outcome_progress _ _ _ _ _ Hout Ha).
Qed.

Lemma C7_initialisation_parameters_witness :
  exists w',
    InitPeripheralsAndHandlers running_env started = Some (0, w') /\
    In (Returned (UART_Open MT3620_RDB_HEADER2_ISU0_UART
                    (mkUART_Config 9600 UART_FlowControl_None [])) 4)
       (trace w') /\
    In (Returned (CreateTimerFdAndAddToEpoll 3 (mkTimespec 0 1000000)
                    buttonPollTimerEventData EPOLLIN) 6) (trace w') /\
    In (Returned (GPIO_OpenAsOutput MT3620_RDB_LED2_RED
                    GPIO_OutputMode_PushPull GPIO_Value_High) 7) (trace w').
Proof.
  destruct (C7_initialisation_parameters running_env started)
    as (r & w' & Hrun & _ & _ & _ & _ & _ & _ & _ & Hok).
  assert (Hr : r = 0).
  { apply Hok.
    - intros i. simpl. lia.
    - intros i id cfg. simpl. lia.
    - intros i epfd fd data mask. reflexivity.
    - intros i id. simpl. lia.
    - intros i epfd period data mask. simpl. lia.
    - intros i id mode initial. simpl. lia. }
  subst r. exists w'. split; [exact Hrun|].
  vm_compute in Hrun. injection Hrun as <-.
  simpl. tauto.
Defined.


(** ** Further properties of the send routine *)

Lemma send_run_failure_is_last fd data total sent iters evs failed :
  send_run fd data total sent iters evs failed ->
  forall pre e post,
    evs = pre ++ e :: post -> is_failed_write e = true ->
    post = [Performed
              (Log_Debug "ERROR: Could not write to UART: %s (%d)." [])].
Proof.
  induction 1 as [sent iters Hd|sent iters r Hlt Hr|sent iters r evs failed Hlt Hr _ IH];
    intros pre e post Heq He.
  - destruct pre as [|e' pre]; simpl in Heq.
    + injection Heq as <- _. discriminate He.
    + injection Heq as _ Heq. destruct pre; discriminate Heq.
  - destruct pre as [|e' pre]; simpl in Heq.
    + injection Heq as _ <-. reflexivity.
    + injection Heq as _ Heq. destruct pre as [|e'' pre]; simpl in Heq.
      * injection Heq as <- _. discriminate He.
      * injection Heq as _ Heq. destruct pre; discriminate Heq.
  - destruct pre as [|e' pre]; simpl in Heq.
    + injection Heq as <- _. simpl in He. apply Z.ltb_lt in He. lia.
    + injection Heq as _ Heq. eapply IH; eassumption.
Qed.

Lemma send_run_failures fd data total sent iters evs failed :
  send_run fd data total sent iters evs failed ->
  existsb is_failure evs = failed.
Proof.
  induction 1 as [sent iters Hd|sent iters r Hlt Hr|sent iters r evs failed Hlt Hr _ IH].
  - reflexivity.
  - simpl. apply Z.ltb_lt in Hr. rewrite Hr. reflexivity.
  - simpl. apply Z.ltb_ge in Hr. rewrite Hr. exact IH.
Qed.

Lemma send_run_keeps_descriptors fd data total sent iters evs failed :
  send_run fd data total sent iters evs failed ->
  forallb keeps_descriptors evs = true.
Proof. induction 1; simpl; auto. Qed.

(** X1.  [SendUartMessage] on the empty message issues no [write] at all: it
    only logs that 0 bytes were sent in 0 calls, changes no global, and does
    so even when no iteration is allowed. *)
Theorem X1_send_empty_message fuel fd env w :
  SendUartMessage fuel fd [] env w =
    Some (tt, mkWorld (globals w)
                (trace w ++
                 [Performed (Log_Debug "Sent %zu bytes over UART in %d calls."
                                       [0; 0])])).
Proof. destruct fuel; reflexivity. Qed.

(** X2.  Whatever the message and whatever [write] answers, when
    [SendUartMessage] returns it has set [terminationRequired] exactly when
    one of its [write] calls returned a negative result, it has changed no
    other global, and a failed [write] is its last [write]: the only event
    after it is the error log line. *)
Theorem X2_send_stops_at_first_failure fuel fd data env w w' :
  SendUartMessage fuel fd data env w = Some (tt, w') ->
  let evs := events_since w w' in
  globals w' =
    (if existsb is_failed_write evs
     then set_terminationRequired true (globals w) else globals w) /\
  forall pre e post,
    evs = pre ++ e :: post -> is_failed_write e = true ->
    post = [Performed
              (Log_Debug "ERROR: Could not write to UART: %s (%d)." [])].
Proof.
  intros H evs. unfold SendUartMessage in H.
  apply SendUartMessage_loop_run in H.
  destruct H as (evs' & failed & Ht & Hrun & _ & Hg).
  unfold evs. rewrite (events_since_app _ _ _ Ht).
  rewrite (send_run_failed _ _ _ _ _ _ _ Hrun).
  split; [exact Hg|].
  apply (send_run_failure_is_last _ _ _ _ _ _ _ Hrun).
Qed.

Lemma X2_send_stops_at_first_failure_witness :
  exists w',
    SendUartMessage 33 4 messageToSend partial_write_env
      (sampled initialWorld GPIO_Value_Low) = Some (tt, w') /\
    terminationRequired (globals w') = true /\
    write_counts (events_since (sampled initialWorld GPIO_Value_Low) w')
      = [33; 23].
Proof.
  destruct (SendUartMessage 33 4 messageToSend partial_write_env
              (sampled initialWorld GPIO_Value_Low))
    as [[[] w']|] eqn:Hrun; [|discriminate].
  destruct (X2_send_stops_at_first_failure _ _ _ _ _ _ Hrun) as [Hg _].
  exists w'. split; [reflexivity|].
  vm_compute in Hrun. injection Hrun as <-. split; reflexivity.
Defined.

(** X3.  For any message shorter than [2^32] bytes and a [write] that never
    returns more than its count: every [write] of [SendUartMessage] goes to
    the descriptor it was given and is handed exactly the bytes that follow
    those already accepted, with their number as count, so no byte is sent
    twice and none is skipped; and the bytes accepted are always an initial
    part of the message. *)
Theorem X3_send_resumes_after_accepted_bytes fuel fd data env w w' :
  write_contract env ->
  Z.of_nat (List.length data) < SIZE_MODULUS ->
  SendUartMessage fuel fd data env w = Some (tt, w') ->
  let evs := events_since w w' in
  (forall pre fd' buf n r post,
      evs = pre ++ Returned (write fd' buf n) r :: post ->
      fd' = fd /\ data = transmitted pre ++ buf /\
      n = Z.of_nat (List.length buf)) /\
  exists unsent, data = transmitted evs ++ unsent.
Proof.
  intros Hc Hmax H evs. unfold SendUartMessage in H.
  rewrite strlen_small in H by exact Hmax.
  apply SendUartMessage_loop_run in H.
  destruct H as (evs' & failed & Ht & Hrun & Ha & _).
  unfold evs. rewrite (events_since_app _ _ _ Ht).
  pose proof (write_contract_events _ _ Hc Ha) as Hw.
  split.
  - intros pre fd' buf n r post Heq.
    apply (send_run_buffers _ _ _ _ _ _ _ Hrun eq_refl Hmax ltac:(lia) Hw
             pre fd' buf n r post Heq).
  - destruct (send_run_bytes _ _ _ _ _ _ _ Hrun eq_refl Hmax ltac:(lia) Hw)
      as (unsent & Hsk & _).
    exists unsent. exact Hsk.
Qed.

Lemma X3_send_resumes_after_accepted_bytes_witness :
  exists w',
    SendUartMessage 33 4 messageToSend partial_write_env
      (sampled initialWorld GPIO_Value_Low) = Some (tt, w') /\
    transmitted (events_since (sampled initialWorld GPIO_Value_Low) w')
      = firstn 10 messageToSend.
Proof.
  assert (Hc : write_contract partial_write_env)
    by (intros i fd buf n Hn; simpl; destruct (i =? 2)%nat; lia).
  destruct (SendUartMessage 33 4 messageToSend partial_write_env
              (sampled initialWorld GPIO_Value_Low))
    as [[[] w']|] eqn:Hrun; [|discriminate].
  destruct (X3_send_resumes_after_accepted_bytes
              33 4 messageToSend partial_write_env
              (sampled initialWorld GPIO_Value_Low) w' Hc eq_refl Hrun)
    as [_ (unsent & _)].
  exists w'. split; [reflexivity|].
  vm_compute in Hrun. injection Hrun as <-. reflexivity.
Defined.

(** ** Further properties of the two handlers *)

(** X4.  When the timer event cannot be consumed, the button poll handler
    sets [terminationRequired] and returns at once: the failed
    [ConsumeTimerFdEvent] is its only library call (the button is not read,
    nothing is sent) and no other global changes. *)
Theorem X4_poll_timer_error fuel env w :
  let g := globals w in
  let r := answer env (now w) (ConsumeTimerFdEvent (buttonPollTimerFd g)) in
  r <> 0 ->
  ButtonPollTimerEventHandler fuel env w =
    Some (tt, mkWorld (set_terminationRequired true g)
                (trace w ++
                 [Returned (ConsumeTimerFdEvent (buttonPollTimerFd g)) r])).
Proof.
  intros g r Hr.
  unfold ButtonPollTimerEventHandler, bind, get, call, modify.
  world_simpl. fold g r. apply Z.eqb_neq in Hr. rewrite Hr. reflexivity.
Qed.

Lemma X4_poll_timer_error_witness :
  ButtonPollTimerEventHandler 0 all_fail_env initialWorld =
    Some (tt, mkWorld (set_terminationRequired true initialGlobals)
                [Returned (ConsumeTimerFdEvent (-1)) (-1)]).
Proof.
  apply (X4_poll_timer_error 0 all_fail_env initialWorld). discriminate.
Defined.

(** X5.  When the timer event is consumed but reading the button fails, the
    handler logs, sets [terminationRequired] and returns: nothing is sent,
    and [buttonState] keeps its value whatever level the failed
    [GPIO_GetValue] left in its out-parameter. *)
Theorem X5_poll_button_read_error fuel env w :
  let g := globals w in
  let r := answer env (S (now w))
                  (GPIO_GetValue (triggerSendButtonGpioFd g)) in
  answer env (now w) (ConsumeTimerFdEvent (buttonPollTimerFd g)) = 0 ->
  r <> 0 ->
  ButtonPollTimerEventHandler fuel env w =
    Some (tt, mkWorld (set_terminationRequired true g)
                (trace w ++
                 [Returned (ConsumeTimerFdEvent (buttonPollTimerFd g)) 0;
                  ReturnedLevel (GPIO_GetValue (triggerSendButtonGpioFd g)) r
                                (level env (S (now w)));
                  Performed
                    (Log_Debug "ERROR: Could not read button GPIO: %s (%d)."
                               [])])).
Proof.
  intros g r Hc Hr.
  unfold ButtonPollTimerEventHandler, bind, get, call, call_level,
    perform, modify.
  world_simpl. fold g. rewrite Hc. change (0 =? 0) with true. world_simpl.
  rewrite now_snoc. fold (now w). fold r.
  apply Z.eqb_neq in Hr. rewrite Hr. world_simpl.
  rewrite <- !app_assoc. reflexivity.
Qed.

Lemma X5_poll_button_read_error_witness :
  exists w',
    ButtonPollTimerEventHandler 0 button_read_fails_env initialWorld
      = Some (tt, w') /\
    buttonState (globals w') = GPIO_Value_High /\
    terminationRequired (globals w') = true /\
    existsb is_write (trace w') = false.
Proof.
  eexists. split.
  - apply (X5_poll_button_read_error 0 button_read_fails_env initialWorld);
      [reflexivity|discriminate].
  - repeat split.
Defined.

Lemma poll_outcome_effect env g evs g' :
  poll_outcome env g evs g' ->
  forallb keeps_descriptors evs = true /\
  descriptors g' = descriptors g /\
  totalBytesReceived g' = totalBytesReceived g /\
  terminationRequired g' = terminationRequired g || existsb is_failure evs /\
  led_requests evs = [].
Proof.
  destruct 1 as [r Hr|r v Hr| |Hb|evs failed Hb Hs Ha].
  - apply Z.eqb_neq in Hr. simpl. rewrite Hr, orb_true_r. repeat split.
  - apply Z.eqb_neq in Hr. simpl. rewrite Hr, orb_true_r. repeat split.
  - simpl. rewrite orb_false_r. repeat split.
  - simpl. rewrite orb_false_r. repeat split.
  - simpl. rewrite (send_run_failures _ _ _ _ _ _ _ Hs),
      (send_run_keeps_descriptors _ _ _ _ _ _ _ Hs).
    assert (Hled : led_requests evs = []).
    { pose proof (send_run_events _ _ _ _ _ _ _ Hs) as He.
      clear - He. induction He as [|e evs He _ IH]; [reflexivity|].
      destruct e as [c r|c r v|c]; simpl in *; try contradiction; try exact IH.
      destruct c; simpl in *; try contradiction; exact IH. }
    rewrite Hled.
    destruct failed; simpl; rewrite ?orb_true_r, ?orb_false_r; repeat split.
Qed.

(** X6.  Whenever the button poll handler returns, [terminationRequired] is
    its old value or-ed with "one of the handler's library calls failed"
    (a timer event not consumed, a button not read, a negative [write]): the
    flag is raised exactly on a failure and never lowered.  The handler
    leaves the five descriptors and [totalBytesReceived] alone and never
    touches the LED. *)
Theorem X6_poll_flag_and_frame fuel env w w' :
  ButtonPollTimerEventHandler fuel env w = Some (tt, w') ->
  terminationRequired (globals w') =
    terminationRequired (globals w)
    || existsb is_failure (events_since w w') /\
  descriptors (globals w') = descriptors (globals w) /\
  totalBytesReceived (globals w') = totalBytesReceived (globals w) /\
  led_requests (events_since w w') = [].
Proof.
  intros H. apply ButtonPollTimerEventHandler_outcome in H.
  destruct H as (evs & Ht & Ho).
  rewrite (events_since_app _ _ _ Ht).
  destruct (poll_outcome_effect _ _ _ _ Ho) as (_ & Hd & Hc & Hf & Hl).
  auto.
Qed.

Lemma X6_poll_flag_and_frame_witness :
  exists w',
    ButtonPollTimerEventHandler 33 partial_write_env initialWorld
      = Some (tt, w') /\
    terminationRequired (globals w') = true /\
    descriptors (globals w') = [-1; -1; -1; -1; -1].
Proof.
  destruct (ButtonPollTimerEventHandler 33 partial_write_env initialWorld)
    as [[[] w']|] eqn:Hrun; [|discriminate].
  destruct (X6_poll_flag_and_frame _ _ _ _ Hrun) as (_ & Hd & _).
  exists w'. split; [reflexivity|]. split; [|exact Hd].
  vm_compute in Hrun. injection Hrun as <-. reflexivity.
Defined.

(** X7.  When bytes were received but the LED cannot be set, the serial
    receive handler logs and sets [terminationRequired], and the bytes stay
    counted: [totalBytesReceived] has already been advanced by the byte count
    (modulo [2^32]) and is not taken back. *)
Theorem X7_receive_led_error_keeps_count env w :
  let g := globals w in
  let r := answer env (now w) (read (uartFd g) receiveBufferSize) in
  let count := size_t (totalBytesReceived g + r) in
  0 < r ->
  answer env (S (S (now w)))
         (GPIO_SetValue (incomingDataLedGpioFd g) (indicator count)) <> 0 ->
  exists w',
    UartEventHandler env w = Some (tt, w') /\
    globals w' =
      set_terminationRequired true (set_totalBytesReceived count g) /\
    existsb is_failure (events_since w w') = true.
Proof.
  intros g r count Hr Hled.
  eexists. split; [apply UartEventHandler_data; exact Hr|].
  erewrite events_since_app by reflexivity.
  unfold receive_globals, receive_events. fold g r count.
  apply Z.eqb_neq in Hled. rewrite Hled. simpl.
  assert (E : (r <? 0) = false) by (apply Z.ltb_ge; lia).
  rewrite E, Hled. split; reflexivity.
Qed.

Lemma X7_receive_led_error_keeps_count_witness :
  exists w',
    UartEventHandler led_fails_env initialWorld = Some (tt, w') /\
    totalBytesReceived (globals w') = 5 /\
    terminationRequired (globals w') = true.
Proof.
  destruct (X7_receive_led_error_keeps_count led_fails_env initialWorld)
    as (w' & Hrun & Hg & _); [reflexivity|discriminate|].
  exists w'. split; [exact Hrun|]. rewrite Hg. split; reflexivity.
Defined.

Lemma UartEventHandler_effect env w :
  exists w' evs,
    UartEventHandler env w = Some (tt, w') /\
    trace w' = trace w ++ evs /\
    forallb keeps_descriptors evs = true /\
    descriptors (globals w') = descriptors (globals w) /\
    buttonState (globals w') = buttonState (globals w) /\
    terminationRequired (globals w') =
      terminationRequired (globals w) || existsb is_failure evs /\
    (bytes_read evs = [] \/ Forall (fun r => r <= 0) (bytes_read evs) ->
     totalBytesReceived (globals w') = totalBytesReceived (globals w)).
Proof.
  set (r := answer env (now w) (read (uartFd (globals w)) receiveBufferSize)).
  destruct (Z.lt_trichotomy r 0) as [Hneg|[Hzero|Hpos]].
  - eexists _, _. split; [apply UartEventHandler_error; exact Hneg|].
    split; [reflexivity|]. fold r. simpl.
    apply Z.ltb_lt in Hneg. rewrite Hneg, orb_true_r. repeat split.
  - eexists _, _. split; [apply UartEventHandler_empty; exact Hzero|].
    split; [reflexivity|]. simpl. rewrite orb_false_r. repeat split.
  - eexists _, _. split; [apply UartEventHandler_data; exact Hpos|].
    split; [reflexivity|]. fold r.
    unfold receive_globals, receive_events. simpl.
    assert (E : (r <? 0) = false) by (apply Z.ltb_ge; lia).
    rewrite E.
    destruct (_ =? 0) eqn:Eled; simpl; rewrite ?Eled; simpl;
      rewrite ?orb_true_r, ?orb_false_r;
      (repeat split;
       intros [Hnil|Hall]; [discriminate Hnil|inversion Hall; lia]).
Qed.

(** X8.  The serial receive handler always returns, and
    [terminationRequired] afterwards is its old value or-ed with "the [read]
    or the [GPIO_SetValue] failed": raised exactly on a failure, never
    lowered.  The handler leaves the five descriptors and [buttonState]
    alone, and it leaves [totalBytesReceived] alone unless the [read]
    returned a positive count. *)
Theorem X8_receive_flag_and_frame env w :
  exists w',
    UartEventHandler env w = Some (tt, w') /\
    terminationRequired (globals w') =
      terminationRequired (globals w)
      || existsb is_failure (events_since w w') /\
    descriptors (globals w') = descriptors (globals w) /\
    buttonState (globals w') = buttonState (globals w) /\
    (Forall (fun r => r <= 0) (bytes_read (events_since w w')) ->
     totalBytesReceived (globals w') = totalBytesReceived (globals w)).
Proof.
  destruct (UartEventHandler_effect env w)
    as (w' & evs & Hrun & Ht & _ & Hd & Hb & Hf & Hc).
  exists w'. rewrite (events_since_app _ _ _ Ht).
  repeat split; auto.
Qed.

Lemma edge_log_no_consecutive_sends (samples : list GPIO_Value_Type) :
  forall recorded pre s1 s2 post,
    edge_log recorded samples = pre ++ (s1, true) :: (s2, true) :: post ->
    False.
Proof.
  induction samples as [|s rest IH]; intros recorded pre s1 s2 post H.
  - destruct pre; discriminate H.
  - destruct pre as [|p pre]; simpl in H.
    + injection H as -> Hb Hrest.
      destruct rest as [|s' rest]; [discriminate Hrest|].
      simpl in Hrest. injection Hrest as -> Hb' _.
      destruct s1, s2, recorded; discriminate.
    + injection H as _ Hrest. eapply IH. exact Hrest.
Qed.

(** X9.  The button poll handler never sends on two processed samples in a
    row: a send must be followed by a sample that does not send (the button
    has to be seen released before it can trigger again), however long the
    button is held and whatever the polls in between do. *)
Theorem X9_no_two_sends_in_a_row n fuel env w w' :
  iterate n (ButtonPollTimerEventHandler fuel) env w = Some (tt, w') ->
  forall pre s1 s2 sent post,
    poll_log (events_since w w') = pre ++ (s1, true) :: (s2, sent) :: post ->
    sent = false.
Proof.
  intros H pre s1 s2 sent post Hlog.
  apply iterate_ButtonPollTimerEventHandler in H.
  destruct H as (evs & Ht & Hos).
  rewrite (events_since_app _ _ _ Ht) in Hlog.
  destruct (poll_outcomes_log _ _ _ _ Hos) as [Hedge _].
  destruct sent; [|reflexivity]. exfalso.
  rewrite Hlog in Hedge at 1.
  eapply edge_log_no_consecutive_sends. symmetry. exact Hedge.
Qed.

Lemma X9_no_two_sends_in_a_row_witness :
  exists w',
    iterate 5 (ButtonPollTimerEventHandler 33) scenario_A_env initialWorld
      = Some (tt, w') /\
    map snd (poll_log (events_since initialWorld w'))
      = [false; true; false; false; true].
Proof.
  assert (Hrun : exists w',
             iterate 5 (ButtonPollTimerEventHandler 33) scenario_A_env
                     initialWorld = Some (tt, w'))
    by (vm_compute; eexists; reflexivity).
  destruct Hrun as [w' Hrun].
  pose proof (X9_no_two_sends_in_a_row 5 33 scenario_A_env initialWorld w'
                Hrun) as Hnever.
  exists w'. split; [exact Hrun|].
  vm_compute in Hrun. injection Hrun as <-. reflexivity.
Defined.

(** ** Further properties of initialisation, the main loop and shutdown *)

Lemma leb_0_false (a : Z) : a < 0 -> (0 <=? a) = false.
Proof. intros H. apply Z.leb_gt. exact H. Qed.

Ltac unfold_init_events :=
  unfold init_led, init_timer, init_button, init_registration, init_uart,
    init_epoll.

Ltac decide_signs :=
  repeat match goal with
         | H : 0 <= ?a |- context [0 <=? ?a] => rewrite (leb_0_true a H)
         | H : ?a < 0 |- context [0 <=? ?a] => rewrite (leb_0_false a H)
         end.

Lemma init_outcome_descriptors env g evs r g' :
  init_outcome env g evs r g' ->
  Forall (fun fd => fd < 0) (descriptors g) ->
  filter (fun fd => 0 <=? fd) (descriptors g') = acquired evs /\
  (r = 0 \/ r = -1) /\
  (r = 0 <-> List.length (acquired evs) = 5%nat) /\
  (r = 0 -> descriptors g' = acquired evs).
Proof.
  intros Hout Hneg.
  unfold descriptors in Hneg.
  inversion Hneg as [|? ? He0 H1]; subst.
  inversion H1 as [|? ? Hu0 H2]; subst.
  inversion H2 as [|? ? Hb0 H3]; subst.
  inversion H3 as [|? ? Ht0 H4]; subst.
  inversion H4 as [|? ? Hl0 _]; subst.
  destruct Hout; unfold_init_events; unfold descriptors; simpl;
    decide_signs; simpl;
    (split; [reflexivity|]);
    (split; [auto|]);
    (split; [split; intros; (discriminate || reflexivity || lia)|]);
    intros; (discriminate || reflexivity || lia).
Qed.

(** X10.  Started with no descriptor held (all five variables negative),
    [InitPeripheralsAndHandlers] returns 0 or -1, and 0 exactly when it
    acquired five descriptors.  Whatever it returns, the descriptor variables
    that are not negative afterwards are exactly the descriptors it acquired,
    in the order epoll, UART, button, timer, LED: a failed step leaves no
    variable pointing at a descriptor that was not handed out. *)
Theorem X10_init_result_and_descriptors env w :
  Forall (fun fd => fd < 0) (descriptors (globals w)) ->
  exists r w',
    InitPeripheralsAndHandlers env w = Some (r, w') /\
    (r = 0 \/ r = -1) /\
    (r = 0 <-> List.length (acquired (events_since w w')) = 5%nat) /\
    filter (fun fd => 0 <=? fd) (descriptors (globals w'))
      = acquired (events_since w w') /\
    (r = 0 -> descriptors (globals w') = acquired (events_since w w')).
Proof.
  intros Hneg.
  destruct (InitPeripheralsAndHandlers_outcome env w)
    as (r & w' & evs & Hrun & Ht & Hout).
  exists r, w'. rewrite (events_since_app _ _ _ Ht).
  destruct (init_outcome_descriptors _ _ _ _ _ Hout Hneg)
    as (Hfilter & Hres & Hiff & Hall).
  auto.
Qed.

Lemma X10_init_result_and_descriptors_witness :
  exists w',
    InitPeripheralsAndHandlers scenario_C_env started = Some (-1, w') /\
    descriptors (globals w') = [3; 4; 5; 6; -1] /\
    acquired (events_since started w') = [3; 4; 5; 6].
Proof.
  destruct (X10_init_result_and_descriptors scenario_C_env started)
    as (r & w' & Hrun & _).
  - repeat constructor.
  - exists w'. vm_compute in Hrun. injection Hrun as <- <-.
    repeat split.
Defined.

Lemma init_outcome_stops env g evs r g' :
  init_outcome env g evs r g' ->
  forall pre c fd post,
    evs = pre ++ Returned c fd :: post ->
    (acquires c = true -> fd < 0 -> forallb is_log post = true /\
                                    (List.length post <= 1)%nat) /\
    (forall epfd ufd data mask,
        c = RegisterEventHandlerToEpoll epfd ufd data mask -> fd <> 0 ->
        post = []).
Proof.
  intros Hout pre c fd post Heq.
  destruct Hout;
    unfold init_led, init_timer, init_button, init_registration, init_uart,
      init_epoll in Heq;
    simpl in Heq;
    repeat (destruct pre as [|? pre]; simpl in Heq;
            [ injection Heq as <- <- <- || discriminate Heq
            | injection Heq as _ Heq ]);
    try (destruct pre; discriminate Heq);
    (split;
     [ intros Hacq Hfd; simpl in Hacq;
       first [ discriminate Hacq
             | lia
             | split; [reflexivity|simpl; lia] ]
     | intros epfd ufd data mask Hc Hfd;
       first [ discriminate Hc
             | reflexivity
             | exfalso; apply Hfd; reflexivity ] ]).
Qed.

(** X11.  [InitPeripheralsAndHandlers] stops at the first failure.  After an
    acquiring call that returned a negative result it issues no further call
    except, at most, the one log line for the error; after a registration of
    the UART handler that did not return 0 it issues none at all.  So no
    peripheral is opened once an earlier step has failed. *)
Theorem X11_init_stops_at_first_failure env w :
  exists r w',
    InitPeripheralsAndHandlers env w = Some (r, w') /\
    forall pre c fd post,
      events_since w w' = pre ++ Returned c fd :: post ->
      (acquires c = true -> fd < 0 ->
       forallb is_log post = true /\ (List.length post <= 1)%nat) /\
      (forall epfd ufd data mask,
          c = RegisterEventHandlerToEpoll epfd ufd data mask -> fd <> 0 ->
          post = []).
Proof.
  destruct (InitPeripheralsAndHandlers_outcome env w)
    as (r & w' & evs & Hrun & Ht & Hout).
  exists r, w'. split; [exact Hrun|].
  rewrite (events_since_app _ _ _ Ht).
  apply (init_outcome_stops _ _ _ _ _ Hout).
Qed.

(** X12.  [InitPeripheralsAndHandlers] only assigns the descriptor
    variables: [buttonState], [totalBytesReceived] and [terminationRequired]
    are as before, also when it fails.  Raising the flag after a failed
    initialisation is left to [main]. *)
Theorem X12_init_leaves_state_variables env w :
  exists r w',
    InitPeripheralsAndHandlers env w = Some (r, w') /\
    buttonState (globals w') = buttonState (globals w) /\
    totalBytesReceived (globals w') = totalBytesReceived (globals w) /\
    terminationRequired (globals w') = terminationRequired (globals w).
Proof.
  destruct (InitPeripheralsAndHandlers_outcome env w)
    as (r & w' & evs & Hrun & _ & Hout).
  exists r, w'. split; [exact Hrun|].
  destruct Hout; repeat split.
Qed.

Lemma acquired_app (a b : list Event) :
  acquired (a ++ b) = acquired a ++ acquired b.
Proof.
  induction a as [|e a IH]; [reflexivity|].
  destruct e as [c r|c r v|c]; simpl; try exact IH.
  destruct (acquires c && (0 <=? r)); simpl; rewrite IH; reflexivity.
Qed.

Lemma released_app (a b : list Event) :
  released (a ++ b) = released a ++ released b.
Proof.
  induction a as [|e a IH]; [reflexivity|].
  destruct e as [c r|c r v|c]; simpl; try exact IH.
  destruct c; simpl; try exact IH. rewrite IH. reflexivity.
Qed.

Lemma keeps_descriptors_events (evs : list Event) :
  forallb keeps_descriptors evs = true ->
  acquired evs = [] /\ released evs = [].
Proof.
  induction evs as [|e evs IH]; [split; reflexivity|].
  simpl. intros H. apply andb_prop in H. destruct H as [He Hevs].
  destruct (IH Hevs) as [Ha Hr].
  destruct e as [c r|c r v|c]; simpl in *.
  - apply negb_true_iff in He. rewrite He. simpl.
    split; [exact Ha|exact Hr].
  - split; [exact Ha|exact Hr].
  - destruct c; try discriminate He; split; assumption.
Qed.

Lemma keeps_resources_refl (w : World) : keeps_resources w w.
Proof. exists []. rewrite app_nil_r. repeat split. Qed.

Lemma keeps_resources_trans (w1 w2 w3 : World) :
  keeps_resources w1 w2 -> keeps_resources w2 w3 -> keeps_resources w1 w3.
Proof.
  intros (e1 & Ht1 & Hk1 & Hd1) (e2 & Ht2 & Hk2 & Hd2).
  exists (e1 ++ e2). rewrite Ht2, Ht1, app_assoc, forallb_app, Hk1, Hk2.
  repeat split. congruence.
Qed.

Lemma ButtonPollTimerEventHandler_keeps_resources fuel env w w' :
  ButtonPollTimerEventHandler fuel env w = Some (tt, w') ->
  keeps_resources w w'.
Proof.
  intros H. apply ButtonPollTimerEventHandler_outcome in H.
  destruct H as (evs & Ht & Ho).
  destruct (poll_outcome_effect _ _ _ _ Ho) as (Hk & Hd & _).
  exists evs. auto.
Qed.

Lemma UartEventHandler_keeps_resources env w w' :
  UartEventHandler env w = Some (tt, w') -> keeps_resources w w'.
Proof.
  intros H.
  destruct (UartEventHandler_effect env w)
    as (w'' & evs & Hrun & Ht & Hk & Hd & _).
  rewrite H in Hrun. injection Hrun as <-. exists evs. auto.
Qed.

Lemma dispatch_keeps_resources fuel sources env :
  forall w w',
    dispatch fuel sources env w = Some (tt, w') -> keeps_resources w w'.
Proof.
  induction sources as [|d rest IH]; intros w w' H; simpl in H.
  - unfold ret in H. injection H as <-. apply keeps_resources_refl.
  - unfold bind in H.
    destruct (eventHandler fuel d env w) as [[[] w1]|] eqn:H1; [|discriminate].
    apply keeps_resources_trans with w1; [|apply IH; exact H].
    destruct d; simpl in H1.
    + eapply ButtonPollTimerEventHandler_keeps_resources; exact H1.
    + eapply UartEventHandler_keeps_resources; exact H1.
Qed.

Lemma keeps_resources_snoc (w : World) (g : Globals) (e : Event) :
  keeps_descriptors e = true -> descriptors g = descriptors (globals w) ->
  keeps_resources w (mkWorld g (trace w ++ [e])).
Proof.
  intros He Hg. exists [e]. simpl. rewrite He. repeat split. exact Hg.
Qed.

Lemma WaitForEventAndCallHandler_keeps_resources fuel epfd env w r w' :
  WaitForEventAndCallHandler fuel epfd env w = Some (r, w') ->
  keeps_resources w w'.
Proof.
  unfold WaitForEventAndCallHandler, pending, bind at 1 2 3, call.
  set (w1 := mkWorld (globals w) (trace w ++ _)).
  assert (H1 : keeps_resources w w1)
    by (apply keeps_resources_snoc; reflexivity).
  destruct (signalled env (now w)).
  - unfold TerminationHandler, bind, modify, ret. intros H.
    injection H as _ <-.
    apply keeps_resources_trans with w1; [exact H1|].
    exists []. rewrite app_nil_r. repeat split.
  - destruct (_ <? 0).
    + unfold ret. intros H. injection H as _ <-. exact H1.
    + unfold bind, ret. intros H.
      destruct (dispatch fuel _ env w1) as [[[] w2]|] eqn:Hd; [|discriminate].
      injection H as _ <-.
      apply keeps_resources_trans with w1; [exact H1|].
      eapply dispatch_keeps_resources; exact Hd.
Qed.

Lemma main_loop_keeps_resources fuel loops env :
  forall w w',
    main_loop fuel loops env w = Some (tt, w') ->
    keeps_resources w w' /\ terminationRequired (globals w') = true.
Proof.
  induction loops as [|loops IH]; intros w w' H; simpl in H;
    unfold bind at 1, get in H; cbn [globals] in H;
    destruct (terminationRequired (globals w)) eqn:Hflag; cbn [negb] in H.
  - unfold ret in H. injection H as <-.
    split; [apply keeps_resources_refl|exact Hflag].
  - discriminate H.
  - unfold ret in H. injection H as <-.
    split; [apply keeps_resources_refl|exact Hflag].
  - unfold bind at 1 in H.
    destruct (WaitForEventAndCallHandler fuel (epollFd (globals w)) env w)
      as [[r w1]|] eqn:Hwait; [|discriminate].
    apply WaitForEventAndCallHandler_keeps_resources in Hwait.
    unfold bind at 1 in H.
    destruct (negb (r =? 0)); cbn [when] in H.
    + unfold modify in H. apply IH in H. destruct H as [Hk Hf].
      split; [|exact Hf].
      apply keeps_resources_trans with w1; [exact Hwait|].
      eapply keeps_resources_trans; [|exact Hk].
      exists []. rewrite app_nil_r. repeat split.
    + unfold ret in H. apply IH in H. destruct H as [Hk Hf].
      split; [|exact Hf].
      apply keeps_resources_trans with w1; assumption.
Qed.

(** What a returning run of [main] consists of. *)
Lemma main_returns fuel loops env r w' :
  main fuel loops env initialWorld = Some (r, w') ->
  exists ri w1 w2,
    InitPeripheralsAndHandlers env started = Some (ri, w1) /\
    keeps_resources w1 w2 /\
    terminationRequired (globals w2) = true /\
    r = 0 /\
    w' = mkWorld (globals w2)
           (trace w2 ++ led_off env w2 ++ close_descriptors (globals w2)
            ++ [Performed (Log_Debug "Application exiting." [])]).
Proof.
  intros H. unfold main in H. unfold bind at 1, perform at 1 in H.
  change (mkWorld (globals initialWorld)
            (trace initialWorld ++
             [Performed (Log_Debug "UART application starting." [])]))
    with started in H.
  unfold bind at 1 in H.
  destruct (InitPeripheralsAndHandlers env started) as [[ri w1]|] eqn:Hinit;
    [|discriminate].
  unfold bind at 1 in H.
  set (w1' := mkWorld (set_terminationRequired true (globals w1)) (trace w1)).
  assert (Hflag : exists w1'',
             when (negb (ri =? 0)) (modify (set_terminationRequired true))
                  env w1 = Some (tt, w1'') /\ keeps_resources w1 w1'').
  { destruct (negb (ri =? 0)); cbn [when].
    - exists w1'. split; [reflexivity|].
      exists []. rewrite app_nil_r. repeat split.
    - exists w1. split; [reflexivity|apply keeps_resources_refl]. }
  destruct Hflag as (w1'' & Hw & Hk1). rewrite Hw in H.
  unfold bind at 1 in H.
  destruct (main_loop fuel loops env w1'') as [[[] w2]|] eqn:Hloop;
    [|discriminate].
  apply main_loop_keeps_resources in Hloop. destruct Hloop as [Hk2 Hf].
  unfold bind at 1 in H. rewrite ClosePeripheralsAndHandlers_run in H.
  unfold bind, perform, ret in H. cbn [globals trace] in H.
  injection H as <- <-.
  exists ri, w1, w2. split; [reflexivity|].
  split; [eapply keeps_resources_trans; eassumption|].
  split; [exact Hf|]. split; [reflexivity|].
  rewrite <- !app_assoc. reflexivity.
Qed.

Lemma filter_rev {A : Type} (f : A -> bool) (l : list A) :
  filter f (rev l) = rev (filter f l).
Proof.
  induction l as [|a l IH]; [reflexivity|].
  simpl. rewrite filter_app, IH. simpl.
  destruct (f a); simpl; [reflexivity|apply app_nil_r].
Qed.

Lemma init_outcome_releases_nothing env g evs r g' :
  init_outcome env g evs r g' -> released evs = [].
Proof. destruct 1; reflexivity. Qed.

Lemma shutdown_events env w :
  acquired (led_off env w ++ close_descriptors (globals w)
            ++ [Performed (Log_Debug "Application exiting." [])]) = [] /\
  released (led_off env w ++ close_descriptors (globals w)
            ++ [Performed (Log_Debug "Application exiting." [])])
    = rev (descriptors (globals w)).
Proof.
  unfold led_off, close_descriptors, descriptors.
  destruct (_ >=? 0); split; reflexivity.
Qed.

(** X13.  Whenever [main] returns, it returns 0, [terminationRequired] is
    set, and [CloseFdAndPrintError] has been called exactly five times in the
    whole run: once for each descriptor variable, in the order LED, timer,
    button, UART, epoll, with the value the variable has at exit.  The last
    thing the program does is log that it is exiting. *)
Theorem X13_main_always_shuts_down fuel loops env r w' :
  main fuel loops env initialWorld = Some (r, w') ->
  r = 0 /\
  terminationRequired (globals w') = true /\
  released (trace w') = rev (descriptors (globals w')) /\
  exists before,
    trace w' = before ++ [Performed (Log_Debug "Application exiting." [])].
Proof.
  intros H. apply main_returns in H.
  destruct H as (ri & w1 & w2 & Hinit & Hk & Hf & -> & ->).
  split; [reflexivity|]. split; [exact Hf|]. cbn [globals trace]. split.
  - destruct (InitPeripheralsAndHandlers_outcome env started)
      as (ri' & w1' & evs & Hrun & Ht & Hout).
    rewrite Hinit in Hrun. injection Hrun as <- <-.
    destruct Hk as (evs2 & Ht2 & Hk2 & _).
    destruct (keeps_descriptors_events _ Hk2) as [_ Hr2].
    rewrite released_app, Ht2, released_app, Ht, released_app, Hr2.
    rewrite (init_outcome_releases_nothing _ _ _ _ _ Hout).
    destruct (shutdown_events env w2) as [_ ->]. reflexivity.
  - exists (trace w2 ++ led_off env w2 ++ close_descriptors (globals w2)).
    rewrite <- !app_assoc. reflexivity.
Qed.

Lemma X13_main_always_shuts_down_witness :
  exists w',
    main 33 5 running_env initialWorld = Some (0, w') /\
    released (trace w') = [7; 6; 5; 4; 3] /\
    totalBytesReceived (globals w') = 10.
Proof.
  assert (Hrun : exists w',
             main 33 5 running_env initialWorld = Some (0, w'))
    by (vm_compute; eexists; reflexivity).
  destruct Hrun as [w' Hrun].
  destruct (X13_main_always_shuts_down 33 5 running_env 0 w' Hrun)
    as (_ & _ & Hreleased & _).
  exists w'. split; [exact Hrun|].
  vm_compute in Hrun. injection Hrun as <-. split; reflexivity.
Defined.

(** X14.  Whenever [main] returns, the descriptors it released that are not
    negative are exactly the descriptors acquired during the run, each once,
    in the reverse order of acquisition: nothing acquired is leaked, nothing
    is released twice, and nothing is released that was not acquired,
    whether initialisation failed (at any step) or the program ran. *)
Theorem X14_main_releases_what_it_acquired fuel loops env r w' :
  main fuel loops env initialWorld = Some (r, w') ->
  filter (fun fd => 0 <=? fd) (released (trace w')) = rev (acquired (trace w')).
Proof.
  intros H. apply main_returns in H.
  destruct H as (ri & w1 & w2 & Hinit & Hk & Hf & -> & ->).
  cbn [globals trace].
  destruct (InitPeripheralsAndHandlers_outcome env started)
    as (ri' & w1' & evs & Hrun & Ht & Hout).
  rewrite Hinit in Hrun. injection Hrun as <- <-.
  destruct Hk as (evs2 & Ht2 & Hk2 & Hd2).
  destruct (keeps_descriptors_events _ Hk2) as [Ha2 Hr2].
  destruct (init_outcome_descriptors _ _ _ _ _ Hout) as (Hfilter & _).
  { repeat constructor. }
  destruct (shutdown_events env w2) as [Ha3 Hr3].
  rewrite released_app, acquired_app, Ha3, Hr3, app_nil_r.
  rewrite Ht2, released_app, acquired_app, Ha2, Hr2, !app_nil_r.
  rewrite Ht, released_app, acquired_app.
  rewrite (init_outcome_releases_nothing _ _ _ _ _ Hout).
  change (released (trace started)) with (@nil Z).
  change (acquired (trace started)) with (@nil Z).
  cbn [app]. rewrite filter_rev, Hd2, Hfilter. reflexivity.
Qed.

Lemma X14_main_releases_what_it_acquired_witness :
  exists w',
    main 0 0 scenario_C_env initialWorld = Some (0, w') /\
    released (trace w') = [-1; 6; 5; 4; 3] /\
    acquired (trace w') = [3; 4; 5; 6].
Proof.
  assert (Hrun : exists w',
             main 0 0 scenario_C_env initialWorld = Some (0, w'))
    by (vm_compute; eexists; reflexivity).
  destruct Hrun as [w' Hrun].
  pose proof (X14_main_releases_what_it_acquired 0 0 scenario_C_env 0 w' Hrun)
    as Hsafe.
  exists w'. split; [exact Hrun|].
  vm_compute in Hrun. injection Hrun as <-. split; reflexivity.
Defined.

Lemma output_level_from_untouched fd (evs : list Event) :
  forallb keeps_descriptors evs = true -> led_requests evs = [] ->
  forall current, output_level_from fd current evs = current.
Proof.
  induction evs as [|e evs IH]; intros Hk Hl current; [reflexivity|].
  simpl in Hk. apply andb_prop in Hk. destruct Hk as [He Hk].
  destruct e as [c r|c r v|c]; simpl in *; try (apply IH; assumption).
  destruct c; simpl in *; try discriminate; apply IH; assumption.
Qed.

Lemma ButtonPollTimerEventHandler_led fuel env w w' :
  ButtonPollTimerEventHandler fuel env w = Some (tt, w') ->
  led_shows_parity w -> led_shows_parity w'.
Proof.
  intros H Hinv Hflag. apply ButtonPollTimerEventHandler_outcome in H.
  destruct H as (evs & Ht & Ho).
  destruct (poll_outcome_effect _ _ _ _ Ho) as (Hk & Hd & Hc & Hf & Hl).
  rewrite Hflag in Hf. symmetry in Hf. apply orb_false_elim in Hf.
  destruct Hf as [Hf _].
  unfold descriptors in Hd. injection Hd as _ _ _ _ Hled.
  unfold output_level. rewrite Ht, output_level_from_app, Hled, Hc.
  rewrite (output_level_from_untouched _ _ Hk Hl). apply Hinv. exact Hf.
Qed.

Lemma UartEventHandler_led env w w' :
  UartEventHandler env w = Some (tt, w') ->
  led_shows_parity w -> led_shows_parity w'.
Proof.
  intros H Hinv Hflag.
  set (r := answer env (now w) (read (uartFd (globals w)) receiveBufferSize)).
  destruct (Z.lt_trichotomy r 0) as [Hneg|[Hzero|Hpos]].
  - rewrite (UartEventHandler_error env w Hneg) in H. injection H as <-.
    discriminate Hflag.
  - rewrite (UartEventHandler_empty env w Hzero) in H. injection H as <-.
    unfold output_level. cbn [globals trace] in *.
    rewrite output_level_from_app. simpl. apply Hinv. exact Hflag.
  - rewrite (UartEventHandler_data env w Hpos) in H. injection H as <-.
    fold r in Hflag |- *. cbn [globals trace] in *.
    unfold receive_globals, receive_events in *.
    unfold output_level. rewrite output_level_from_app.
    destruct (_ =? 0) eqn:Eled; [|discriminate Hflag].
    simpl. rewrite Z.eqb_refl, Eled. reflexivity.
Qed.

Lemma dispatch_led fuel sources env :
  forall w w',
    dispatch fuel sources env w = Some (tt, w') ->
    led_shows_parity w -> led_shows_parity w'.
Proof.
  induction sources as [|d rest IH]; intros w w' H Hinv; simpl in H.
  - unfold ret in H. injection H as <-. exact Hinv.
  - unfold bind in H.
    destruct (eventHandler fuel d env w) as [[[] w1]|] eqn:H1; [|discriminate].
    apply (IH w1 w' H).
    destruct d; simpl in H1.
    + eapply ButtonPollTimerEventHandler_led; eassumption.
    + eapply UartEventHandler_led; eassumption.
Qed.

(** X15.  After a successful initialisation at program start and any
    sequence of invocations of the two handlers, as long as
    [terminationRequired] is still clear the LED is at the level that shows
    the parity of [totalBytesReceived]: Low (on) for an odd count, High (off)
    for an even one.  The level of the LED is the initial value given when it
    was opened or the value of the last [GPIO_SetValue] that returned 0. *)
Theorem X15_led_shows_parity_while_running fuel sources env w0 w :
  InitPeripheralsAndHandlers env started = Some (0, w0) ->
  dispatch fuel sources env w0 = Some (tt, w) ->
  terminationRequired (globals w) = false ->
  output_level (incomingDataLedGpioFd (globals w)) (trace w) =
    Some (indicator (totalBytesReceived (globals w))).
Proof.
  intros Hinit Hrun.
  apply (dispatch_led _ _ _ _ _ Hrun).
  intros _.
  destruct (InitPeripheralsAndHandlers_outcome env started)
    as (r & w1 & evs & Hrun0 & Ht & Hout).
  rewrite Hinit in Hrun0. injection Hrun0 as <- <-.
  unfold output_level. rewrite Ht.
  inversion Hout as [ | | | | | |e u b t l He Hu Hb Htm Hl Hevs Hr Hg].
  unfold_init_events. simpl. rewrite Z.eqb_refl. reflexivity.
Qed.

Lemma X15_led_shows_parity_while_running_witness :
  exists w0 w,
    InitPeripheralsAndHandlers running_env started = Some (0, w0) /\
    dispatch 33 [uartEventData; buttonPollTimerEventData; uartEventData;
                 uartEventData] running_env w0 = Some (tt, w) /\
    totalBytesReceived (globals w) = 15 /\
    output_level 7 (trace w) = Some GPIO_Value_Low.
Proof.
  assert (Hinit : exists w0,
             InitPeripheralsAndHandlers running_env started = Some (0, w0))
    by (vm_compute; eexists; reflexivity).
  destruct Hinit as [w0 Hinit].
  assert (Hrun : exists w,
             dispatch 33 [uartEventData; buttonPollTimerEventData;
                          uartEventData; uartEventData] running_env w0
               = Some (tt, w) /\
             terminationRequired (globals w) = false).
  { vm_compute in Hinit. injection Hinit as <-.
    vm_compute. eexists. split; reflexivity. }
  destruct Hrun as (w & Hrun & Hflag).
  pose proof (X15_led_shows_parity_while_running _ _ _ _ _ Hinit Hrun Hflag)
    as Hled.
  exists w0, w. split; [exact Hinit|]. split; [exact Hrun|].
  vm_compute in Hinit. injection Hinit as <-.
  vm_compute in Hrun. injection Hrun as <-. split; reflexivity.
Defined.
